(** * Reply generation of the support-chat backend

    A shallow embedding of [backend/src/services/llm/gemini.ts]
    (class [GeminiProvider]) and the properties of its reply pipeline:
    prompt assembly, history truncation, the retry loop with exponential
    backoff, error classification and the fallback reply.

    JavaScript strings are sequences of UTF-16 code units; [length],
    [slice], [trim] and [includes] all count and compare code units, so a
    string is embedded as a list of code units. *)

From Stdlib Require Import List ZArith NArith QArith Bool String Ascii Lia.
Import ListNotations.

Local Open Scope Z_scope.

(* ================================================================== *)
(** ** JavaScript strings *)
(* ================================================================== *)

Module Js.

Definition code_unit := N.
Definition jsstring := list code_unit.

(** An ASCII literal of the source, one code unit per character. *)
Definition lit (s : string) : jsstring :=
  List.map N_of_ascii (list_ascii_of_string s).

Definition LF : jsstring := [10%N].
Definition EN_DASH : jsstring := [8211%N].
Definition EM_DASH : jsstring := [8212%N].

(** [s.length] *)
Definition length (s : jsstring) : Z := Z.of_nat (List.length s).

(** Relative index of [String.prototype.slice]: negative counts from the
    end, everything is clamped to [0, len]. *)
Definition relative_index (len i : Z) : Z :=
  if i <? 0 then Z.max (len + i) 0 else Z.min i len.

(** [s.slice(start, end)]; [end_ = None] is an omitted second argument. *)
Definition slice (s : jsstring) (start : Z) (end_ : option Z) : jsstring :=
  let len := length s in
  let from := relative_index len start in
  let to := match end_ with
            | None => len
            | Some e => relative_index len e
            end in
  let span := Z.max (to - from) 0 in
  firstn (Z.to_nat span) (skipn (Z.to_nat from) s).

(** WhiteSpace and LineTerminator code points, the ones [trim] strips. *)
Definition is_whitespace (c : code_unit) : bool :=
  ((9 <=? c) && (c <=? 13) || (c =? 32) || (c =? 160) || (c =? 5760)
   || (8192 <=? c) && (c <=? 8202) || (c =? 8232) || (c =? 8233)
   || (c =? 8239) || (c =? 8287) || (c =? 12288) || (c =? 65279))%N.

(** The same code units, one by one: tab, line feed, vertical tab, form
    feed, carriage return, space, no-break space, ogham space mark, en
    quad to hair space, line separator, paragraph separator, narrow
    no-break space, medium mathematical space, ideographic space and
    the byte order mark. *)
Abbreviation white_space :=
  [ 9%N; 10%N; 11%N; 12%N; 13%N; 32%N; 160%N; 5760%N;
    8192%N; 8193%N; 8194%N; 8195%N; 8196%N; 8197%N; 8198%N; 8199%N;
    8200%N; 8201%N; 8202%N; 8232%N; 8233%N; 8239%N; 8287%N; 12288%N;
    65279%N ].

Fixpoint trimStart (s : jsstring) : jsstring :=
  match s with
  | c :: s' => if is_whitespace c then trimStart s' else s
  | [] => []
  end.

Definition trimEnd (s : jsstring) : jsstring := rev (trimStart (rev s)).

(** [s.trim()] *)
Definition trim (s : jsstring) : jsstring := trimEnd (trimStart s).

Fixpoint startsWith (s prefix : jsstring) {struct prefix} : bool :=
  match prefix, s with
  | [], _ => true
  | p :: prefix', c :: s' => (p =? c)%N && startsWith s' prefix'
  | _ :: _, [] => false
  end.

(** [s.includes(search)] *)
Fixpoint includes (s search : jsstring) : bool :=
  startsWith s search
  || match s with
     | [] => false
     | _ :: s' => includes s' search
     end.

(** [parts.join(sep)] on an array of strings: empty for the empty array,
    otherwise the first element followed by [sep + element] for each of
    the others, left to right. *)
Definition join (parts : list jsstring) (sep : jsstring) : jsstring :=
  match parts with
  | [] => []
  | first :: others => fold_left (fun R next => R ++ sep ++ next) others first
  end.

(** [!s] for a string [s]: only the empty string is falsy. *)
Definition falsy (s : jsstring) : bool :=
  match s with
  | [] => true
  | _ :: _ => false
  end.

End Js.

Import Js.

(* ================================================================== *)
(** ** The provider: constants and data *)
(* ================================================================== *)

Module Gemini.

Definition SYSTEM_PROMPT : jsstring :=
  lit "You are a helpful support agent for a small e-commerce store. Answer clearly and concisely."
  ++ LF ++ LF
  ++ lit "FAQ Domain Knowledge:" ++ LF
  ++ lit "- Shipping: We ship worldwide with delivery in 5" ++ EN_DASH
  ++ lit "7 business days" ++ LF
  ++ lit "- Returns: 30-day return & refund policy" ++ LF
  ++ lit "- Support Hours: 9am" ++ EN_DASH ++ lit "6pm IST, Monday" ++ EN_DASH
  ++ lit "Saturday" ++ LF
  ++ lit "- Free Shipping: Free shipping to USA on orders over $50" ++ LF ++ LF
  ++ lit "Keep responses helpful, professional, and concise.".

Definition MAX_RESPONSE_TOKENS : Z := 500.
Definition MAX_INPUT_TOKENS : Z := 4000.
Definition MAX_RETRIES : nat := 3.
Definition RETRY_DELAY_MS : Z := 1000.

(** The model follows [generateReply] statement by statement.  Left out
    are the parts that neither return a value nor change the control
    flow: the [console.warn] and [console.error] lines and the
    [temperature: 0.7] option passed along with [maxOutputTokens].
    An [Error] carries a string [message], as its type says. *)

(** One element of the [history] array. *)
Record Turn := { sender : jsstring; text : jsstring }.

(** A value caught by [catch (error: unknown)]: an instance of [Error]
    with its [message], or any other value.  Of a value that is not an
    [Error] the code asks one thing, [String(error)]: that conversion
    returns a string, or it throws (an object without [toString], or
    whose [toString] throws). *)
Inductive js_value :=
| ErrorInstance (message : jsstring)
| NotAnError (as_string : jsstring)
| Unconvertible (thrown : js_value).

(** What went wrong on the backend's side of a failed attempt.  The
    provider never sees this: it only sees the thrown value. *)
Inductive failure_cause :=
| Authentication      (* bad or missing credential, not authorised *)
| MalformedRequest    (* the request was rejected as not valid *)
| Network             (* the request never got an answer *)
| TransientBackend    (* 5xx, rate limit: the same call may work later *)
| OtherCause.

(** How one attempt's [Promise.race] and the following [response.text()]
    end: the text of the response, something thrown on the way, or the
    30 second timer rejecting first. *)
Inductive attempt_outcome :=
| Responds (text : jsstring)
| Fails (cause : failure_cause) (error : js_value)
| TimerFiresFirst.

(** The observable effects of a call, in the order they happen. *)
Inductive event :=
| GenerateContent (prompt : jsstring) (maxOutputTokens : Z)
| Sleep (ms : Z).

Definition trace := list event.

Definition is_call (e : event) : bool :=
  match e with
  | GenerateContent _ _ => true
  | Sleep _ => false
  end.

Definition sleep_of (e : event) : option Z :=
  match e with
  | Sleep ms => Some ms
  | GenerateContent _ _ => None
  end.

(** Number of backend calls issued so far. *)
Definition backend_calls (w : trace) : nat := List.length (filter is_call w).

(** The delays slept so far, oldest first. *)
Fixpoint sleeps (w : trace) : list Z :=
  match w with
  | [] => []
  | e :: w' => match sleep_of e with
               | Some ms => ms :: sleeps w'
               | None => sleeps w'
               end
  end.

(* ------------------------------------------------------------------ *)
(** ** Effects: a trace of events, and exceptions *)
(* ------------------------------------------------------------------ *)

Inductive completion (A : Type) :=
| Normal (value : A)
| Throw (error : js_value).
Arguments Normal {A} value.
Arguments Throw {A} error.

Definition Eff (A : Type) : Type := trace -> completion A * trace.

Definition ret {A} (a : A) : Eff A := fun w => (Normal a, w).

Definition bind {A B} (m : Eff A) (k : A -> Eff B) : Eff B :=
  fun w => match m w with
           | (Normal a, w') => k a w'
           | (Throw e, w') => (Throw e, w')
           end.

Definition try_catch {A} (body : Eff A) (handler : js_value -> Eff A) : Eff A :=
  fun w => match body w with
           | (Normal a, w') => (Normal a, w')
           | (Throw e, w') => handler e w'
           end.

Definition throw {A} (e : js_value) : Eff A := fun w => (Throw e, w).

Definition emit (e : event) : Eff unit := fun w => (Normal tt, w ++ [e]).

Declare Scope eff_scope.
Delimit Scope eff_scope with eff.
Notation "x <- m ;; k" := (bind m (fun x => k))
  (at level 61, m at next level, right associativity) : eff_scope.
Notation "m ;; k" := (bind m (fun _ => k))
  (at level 61, right associativity) : eff_scope.
Local Open Scope eff_scope.

(** How a loop body ends: with a [return] of the enclosing function, or by
    reaching its end, after which the loop goes on. *)
Inductive control (A : Type) :=
| Returned (value : A)
| FellThrough.
Arguments Returned {A} value.
Arguments FellThrough {A}.

(* ------------------------------------------------------------------ *)
(** ** The methods of [GeminiProvider] *)
(* ------------------------------------------------------------------ *)

Definition getFallbackMessage : jsstring :=
  lit "Sorry " ++ EM_DASH
  ++ lit " our support agent is having trouble right now. Please try again shortly.".

Definition role_of (msg : Turn) : jsstring :=
  if list_eq_dec N.eq_dec (sender msg) (lit "user")
  then lit "User" else lit "Assistant".

Definition format_turn (msg : Turn) : jsstring :=
  role_of msg ++ lit ": " ++ text msg.

Definition formatHistory (history : list Turn) : jsstring :=
  join (List.map format_turn history) LF.

(** [history.length / 4] is a division of numbers, not of integers. *)
Definition estimatedTokens (history : jsstring) : Q := length history # 4.

Definition truncateHistory (history : jsstring) : jsstring :=
  if Qle_bool (estimatedTokens history) (inject_Z MAX_INPUT_TOKENS)
  then history
  else
    let maxLength := MAX_INPUT_TOKENS * 4 in
    slice history (- maxLength) None.

Definition HISTORY_HEADER : jsstring := LF ++ LF ++ lit "Conversation History:" ++ LF.
Definition USER_CUE : jsstring := LF ++ LF ++ lit "User: ".
Definition ASSISTANT_CUE : jsstring := LF ++ LF ++ lit "Assistant:".

(** The template literal of [generateReply]. *)
Definition build_prompt (truncatedHistory userMessage : jsstring) : jsstring :=
  SYSTEM_PROMPT ++ HISTORY_HEADER ++ truncatedHistory
  ++ USER_CUE ++ userMessage ++ ASSISTANT_CUE.

Definition TIMEOUT_ERROR : js_value := ErrorInstance (lit "LLM request timeout").

(** [error instanceof Error ? error.message : 'Unknown error'] *)
Definition errorMessage_of (error : js_value) : jsstring :=
  match error with
  | ErrorInstance message => message
  | NotAnError _ | Unconvertible _ => lit "Unknown error"
  end.

(** [error instanceof Error ? error : new Error(String(error))] *)
Definition as_Error (error : js_value) : Eff js_value :=
  match error with
  | ErrorInstance _ => ret error
  | NotAnError as_string => ret (ErrorInstance as_string)
  | Unconvertible thrown => throw thrown
  end.

(** The test of the "Don't retry on certain errors" branch. *)
Definition non_retryable (errorMessage : jsstring) : bool :=
  includes errorMessage (lit "API_KEY")
  || includes errorMessage (lit "401")
  || includes errorMessage (lit "403")
  || includes errorMessage (lit "400")
  || includes errorMessage (lit "invalid").

(** [Math.pow(2, attempt)] is exact on the small integers used here. *)
Definition backoff_delay (attempt : nat) : Z :=
  RETRY_DELAY_MS * 2 ^ Z.of_nat attempt.

Definition is_blank (text : jsstring) : bool :=
  falsy text || (length (trim text) =? 0).

Section Provider.

(** The backend and its timer, as seen by the provider: the outcome of
    the [n]-th call (counting from 0) on a prompt. *)
Variable backend : nat -> jsstring -> attempt_outcome.

Definition sleep (ms : Z) : Eff unit := emit (Sleep ms).

(** [await Promise.race([this.model.generateContent(prompt, ...), timeoutPromise])]
    followed by [result.response.text()]. *)
Definition race_generateContent (prompt : jsstring) : Eff jsstring :=
  fun w =>
    let w' := w ++ [GenerateContent prompt MAX_RESPONSE_TOKENS] in
    match backend (backend_calls w) prompt with
    | Responds text => (Normal text, w')
    | Fails _ error => (Throw error, w')
    | TimerFiresFirst => (Throw TIMEOUT_ERROR, w')
    end.

Section Call.

Variable history : list Turn.
Variable userMessage : jsstring.

Definition try_block : Eff (control jsstring) :=
  let conversationHistory := formatHistory history in
  let truncatedHistory := truncateHistory conversationHistory in
  let prompt := build_prompt truncatedHistory userMessage in
  text <- race_generateContent prompt ;;
  if is_blank text
  then ret (Returned getFallbackMessage)
  else ret (Returned (slice (trim text) 0 (Some 2000))).

(** [lastError], declared before the loop, is assigned here and read
    nowhere. *)
Definition catch_block (attempt : nat) (error : js_value) : Eff (control jsstring) :=
  let errorMessage := errorMessage_of error in
  lastError <- as_Error error ;;
  if non_retryable errorMessage
  then ret (Returned getFallbackMessage)
  else if (attempt <? MAX_RETRIES - 1)%nat
  then
    let delay := backoff_delay attempt in
    sleep delay ;;
    ret FellThrough
  else ret FellThrough.

(** The [for] loop over the values [attempt] takes, and the statement
    after it. *)
Fixpoint for_attempts (attempts : list nat) : Eff jsstring :=
  match attempts with
  | [] => ret getFallbackMessage
  | attempt :: later =>
      c <- try_catch try_block (catch_block attempt) ;;
      match c with
      | Returned value => ret value
      | FellThrough => for_attempts later
      end
  end.

Definition generateReply : Eff jsstring :=
  for_attempts (seq 0 MAX_RETRIES).

End Call.
End Provider.

(* ------------------------------------------------------------------ *)
(** ** Vocabulary for the statements *)
(* ------------------------------------------------------------------ *)

(** The prompt [generateReply] builds from its two arguments. *)
Definition prompt_of (history : list Turn) (userMessage : jsstring) : jsstring :=
  build_prompt (truncateHistory (formatHistory history)) userMessage.

Definition call_event (prompt : jsstring) : event :=
  GenerateContent prompt MAX_RESPONSE_TOKENS.

(** The value the [catch] clause receives, when the attempt fails. *)
Definition thrown_by (o : attempt_outcome) : option js_value :=
  match o with
  | Responds _ => None
  | Fails _ error => Some error
  | TimerFiresFirst => Some TIMEOUT_ERROR
  end.

(** A caught value on which the [catch] clause itself throws. *)
Definition conversion_throws (error : js_value) : bool :=
  match error with
  | Unconvertible _ => true
  | ErrorInstance _ | NotAnError _ => false
  end.

(** A failed attempt on which the [catch] clause throws. *)
Definition catch_throws (o : attempt_outcome) : bool :=
  match thrown_by o with
  | Some error => conversion_throws error
  | None => false
  end.

(** A failed attempt that the [catch] clause does not give up on. *)
Definition retryable_failure (o : attempt_outcome) : bool :=
  match thrown_by o with
  | Some error =>
      negb (conversion_throws error) && negb (non_retryable (errorMessage_of error))
  | None => false
  end.

(** A failed attempt on which the [catch] clause gives up. *)
Definition non_retryable_failure (o : attempt_outcome) : bool :=
  match thrown_by o with
  | Some error => non_retryable (errorMessage_of error)
  | None => false
  end.

(** Lines laid out one per row: a newline between neighbours, none at
    either end, the first line first. *)
Fixpoint newline_separated (lines : list jsstring) : jsstring :=
  match lines with
  | [] => []
  | [line] => line
  | line :: later => line ++ LF ++ newline_separated later
  end.

(** The causes the specification lists as not worth a retry. *)
Definition authentication_or_validation (c : failure_cause) : bool :=
  match c with
  | Authentication | MalformedRequest => true
  | Network | TransientBackend | OtherCause => false
  end.

(** The events of one attempt that fails and is retried or exhausts the
    loop: the call, and the backoff sleep unless it was the last one. *)
Definition failed_attempt_events (prompt : jsstring) (attempt : nat) : trace :=
  call_event prompt
  :: (if (attempt <? MAX_RETRIES - 1)%nat then [Sleep (backoff_delay attempt)] else []).

Definition retry_events (prompt : jsstring) (attempts : list nat) : trace :=
  flat_map (failed_attempt_events prompt) attempts.

End Gemini.

(* ================================================================== *)
(** ** The state machine of the specification *)
(* ================================================================== *)

(** The controller as the specification draws it: the prompt is assembled
    once, on leaving [START]; [ATTEMPT i] calls the backend and moves to
    [DONE] or, after the backoff, to [ATTEMPT (i+1)]; [DONE] is terminal. *)
Module StateMachine.
Import Gemini.

Inductive state :=
| START
| ATTEMPT (i : nat) (prompt : jsstring)
| DONE (result : jsstring).

Section Machine.

Variable backend : nat -> jsstring -> attempt_outcome.
Variable history : list Turn.
Variable userMessage : jsstring.

Definition capped (text : jsstring) : jsstring := slice (trim text) 0 (Some 2000).

(** A failed attempt.  The machine classifies every failure by its
    message and has no state other than [DONE] to end in: it never
    raises. *)
Definition on_failure (i : nat) (prompt : jsstring) (error : js_value) (w : trace)
  : state * trace :=
  if non_retryable (errorMessage_of error) then (DONE getFallbackMessage, w)
  else if (i <? MAX_RETRIES - 1)%nat
       then (ATTEMPT (S i) prompt, w ++ [Sleep (backoff_delay i)])
       else (DONE getFallbackMessage, w).

Definition step (s : state) (w : trace) : state * trace :=
  match s with
  | START => (ATTEMPT 0 (prompt_of history userMessage), w)
  | ATTEMPT i prompt =>
      let w' := w ++ [call_event prompt] in
      match backend (backend_calls w) prompt with
      | Responds text =>
          if is_blank text then (DONE getFallbackMessage, w')
          else (DONE (capped text), w')
      | Fails _ error => on_failure i prompt error w'
      | TimerFiresFirst => on_failure i prompt TIMEOUT_ERROR w'
      end
  | DONE result => (DONE result, w)
  end.

Fixpoint run (steps : nat) (s : state) (w : trace) : state * trace :=
  match steps with
  | O => (s, w)
  | S steps' => let (s', w') := step s w in run steps' s' w'
  end.

(** One step to leave [START], one per attempt. *)
Definition spec_generateReply (w : trace) : state * trace :=
  run (S MAX_RETRIES) START w.

End Machine.
End StateMachine.

(* ================================================================== *)
(** ** Scenarios *)
(* ================================================================== *)

(** Concrete conversations and backends on which the statements below
    are exercised. *)
Module Scenarios.
Import Gemini.

Definition greeting : list Turn :=
  [ {| sender := lit "user"; text := lit "Hi" |} ].

Definition two_turns : list Turn :=
  [ {| sender := lit "user"; text := lit "Hi" |};
    {| sender := lit "ai"; text := lit "Hello, how can I help?" |} ].

(** One turn whose text alone is 16001 code units long. *)
Definition long_history : list Turn :=
  [ {| sender := lit "user"; text := repeat 97%N (Z.to_nat 16001) |} ].

Definition question : jsstring := lit "What's your return policy?".

(** The timer fires first on every call. *)
Definition always_times_out : nat -> jsstring -> attempt_outcome :=
  fun _ _ => TimerFiresFirst.

(** The credential is rejected. *)
Definition rejects_credential : nat -> jsstring -> attempt_outcome :=
  fun _ _ => Fails Authentication (ErrorInstance (lit "[401 Unauthorized] API key rejected")).

(** The backend is out of quota and says when to come back. *)
Definition rate_limit_message : jsstring :=
  lit "[429 Too Many Requests] You exceeded your current quota. Please retry in 7.400s.".

Definition rate_limited : nat -> jsstring -> attempt_outcome :=
  fun _ _ => Fails TransientBackend (ErrorInstance rate_limit_message).

(** The connection drops on every call. *)
Definition network_down : nat -> jsstring -> attempt_outcome :=
  fun _ _ => Fails Network (ErrorInstance (lit "fetch failed")).

(** A timeout, then a response of blanks only. *)
Definition blank_on_second : nat -> jsstring -> attempt_outcome :=
  fun n _ => match n with
             | O => TimerFiresFirst
             | _ => Responds (lit "   ")
             end.

(** An immediate answer, padded with white space. *)
Definition answers_at_once : nat -> jsstring -> attempt_outcome :=
  fun _ _ => Responds (LF ++ lit " 30-day returns. " ++ LF).

(** Two timeouts, then an answer. *)
Definition answers_on_third : nat -> jsstring -> attempt_outcome :=
  fun n _ => match n with
             | 0%nat | 1%nat => TimerFiresFirst
             | _ => Responds (lit "Shipped in 5-7 days.")
             end.

(** A backend that is a function of the prompt alone. *)
Definition echo_length : nat -> jsstring -> attempt_outcome :=
  fun _ prompt => if length prompt <? 500
                  then Responds (lit "Short question.")
                  else Fails TransientBackend (ErrorInstance (lit "[503 Service Unavailable] overloaded")).

End Scenarios.

(* ================================================================== *)
(** ** More scenarios *)
(* ================================================================== *)

Module MoreScenarios.
Import Gemini.

(** A timeout, then a rejected credential. *)
Definition rejects_on_second : nat -> jsstring -> attempt_outcome :=
  fun n _ => match n with
             | O => TimerFiresFirst
             | _ => Fails Authentication
                      (ErrorInstance (lit "[403 Forbidden] caller is not authorised"))
             end.

(** What [String(value)] throws for an object that has no [toString],
    such as [Object.create(null)]. *)
Definition CANNOT_CONVERT : js_value :=
  ErrorInstance (lit "Cannot convert object to primitive value").

(** The backend's promise is rejected with such an object. *)
Definition rejects_with_bare_object : nat -> jsstring -> attempt_outcome :=
  fun _ _ => Fails OtherCause (Unconvertible CANNOT_CONVERT).

(** A timeout, then an answer with white space around it. *)
Definition padded_on_second : nat -> jsstring -> attempt_outcome :=
  fun n _ => match n with
             | O => TimerFiresFirst
             | _ => Responds (lit "  Shipped in 5-7 days." ++ LF)
             end.

Definition user_says (t : jsstring) : Turn := {| sender := lit "user"; text := t |}.
Definition ai_says (t : jsstring) : Turn := {| sender := lit "ai"; text := t |}.

End MoreScenarios.

(* ================================================================== *)
(** ** Input sanitizing *)
(* ================================================================== *)

(** [utils/sanitize.ts]: the six replacements applied to a user message
    before it is stored. *)
Module Sanitize.

Definition AMPERSAND : code_unit := 38%N.
Definition LESS_THAN : code_unit := 60%N.
Definition GREATER_THAN : code_unit := 62%N.
Definition DOUBLE_QUOTE : code_unit := 34%N.
Definition SINGLE_QUOTE : code_unit := 39%N.
Definition SLASH : code_unit := 47%N.

(** [s.replace(/c/g, replacement)] where the pattern is one literal
    character and the replacement holds no dollar sign: every occurrence
    of the character, left to right, gives way to the replacement. *)
Definition replace_all (s : jsstring) (c : code_unit) (replacement : jsstring) : jsstring :=
  flat_map (fun u => if (u =? c)%N then replacement else [u]) s.

Definition sanitizeInput (input : jsstring) : jsstring :=
  replace_all
    (replace_all
       (replace_all
          (replace_all
             (replace_all
                (replace_all input AMPERSAND (lit "&amp;"))
                LESS_THAN (lit "&lt;"))
             GREATER_THAN (lit "&gt;"))
          DOUBLE_QUOTE (lit "&quot;"))
       SINGLE_QUOTE (lit "&#x27;"))
    SLASH (lit "&#x2F;").

Definition sanitizeAndTrim (input : jsstring) : jsstring :=
  sanitizeInput (trim input).

(** What becomes of one code unit. *)
Definition escape (c : code_unit) : jsstring :=
  if (c =? AMPERSAND)%N then lit "&amp;"
  else if (c =? LESS_THAN)%N then lit "&lt;"
  else if (c =? GREATER_THAN)%N then lit "&gt;"
  else if (c =? DOUBLE_QUOTE)%N then lit "&quot;"
  else if (c =? SINGLE_QUOTE)%N then lit "&#x27;"
  else if (c =? SLASH)%N then lit "&#x2F;"
  else [c].

(** The six characters that are replaced. *)
Definition is_special (c : code_unit) : bool :=
  ((c =? AMPERSAND) || (c =? LESS_THAN) || (c =? GREATER_THAN)
   || (c =? DOUBLE_QUOTE) || (c =? SINGLE_QUOTE) || (c =? SLASH))%N.

(** The five of them that do not occur in the output. *)
Definition is_markup (c : code_unit) : bool :=
  ((c =? LESS_THAN) || (c =? GREATER_THAN)
   || (c =? DOUBLE_QUOTE) || (c =? SINGLE_QUOTE) || (c =? SLASH))%N.

End Sanitize.

(* ================================================================== *)
(** ** The chat route and what it calls *)
(* ================================================================== *)

(** [services/llm/index.ts], [services/redis.ts] and the message handler
    of [routes/chat.ts].  The database, Redis, [cuid], [JSON] and the
    environment are outside this code: each is a parameter that says how
    the call made at a given moment ends. *)
Module Server.
Import Gemini Sanitize.

(** [array.slice(start, end)], with the index rules of the string
    method. *)
Definition array_slice {A : Type} (l : list A) (start : Z) (end_ : option Z) : list A :=
  let len := Z.of_nat (List.length l) in
  let from := relative_index len start in
  let to := match end_ with
            | None => len
            | Some e => relative_index len e
            end in
  let span := Z.max (to - from) 0 in
  firstn (Z.to_nat span) (skipn (Z.to_nat from) l).

(** [!v] for a value that is a string or [undefined]. *)
Definition missing (v : option jsstring) : bool :=
  match v with
  | None => true
  | Some s => falsy s
  end.

(* ------------------------------------------------------------------ *)
(** *** [services/llm]: building the provider *)

(** An instance of [GeminiProvider]; its client and model handle are
    made from the key. *)
Record GeminiProvider := { apiKey : jsstring }.

(** The constructor of [GeminiProvider]. *)
Definition new_GeminiProvider (key : jsstring) : completion GeminiProvider :=
  if falsy key
  then Throw (ErrorInstance (lit "GEMINI_API_KEY is required"))
  else Normal {| apiKey := key |}.

Definition createLLMProvider (GEMINI_API_KEY : option jsstring)
  : completion GeminiProvider :=
  match GEMINI_API_KEY with
  | None =>
      Throw (ErrorInstance (lit "GEMINI_API_KEY environment variable is required"))
  | Some key =>
      if falsy key
      then Throw (ErrorInstance (lit "GEMINI_API_KEY environment variable is required"))
      else new_GeminiProvider key
  end.

(* ------------------------------------------------------------------ *)
(** *** The world of a request *)

(** A row of the message table, as far as the handler reads it. *)
Record Row := { row_id : jsstring; row_sender : jsstring; row_text : jsstring }.

(** What [JSON.parse] makes of a cached string.  An array is taken to
    hold turns, as the cast in [getCachedMessages] takes it. *)
Inductive parsed_json :=
| JsonArray (items : list Turn)
| JsonOther.

(** Calls that leave the process, other than those of the provider. *)
Inductive io_event :=
| NewId (id : jsstring)
| ConversationFindUnique (id : jsstring)
| ConversationCreate (id : jsstring)
| MessageCreate (id conversationId sender text : jsstring)
| MessageFindMany (conversationId : jsstring) (take : Z)
| RedisGet (key : jsstring)
| RedisSetex (key : jsstring) (seconds : Z) (value : jsstring).

Record world := {
  llm_trace : trace;                       (* the calls and sleeps of the provider *)
  log : list io_event;                     (* every other call, oldest first *)
  llmProvider : option GeminiProvider      (* the module variable of the route *)
}.

Definition moment (w : world) : nat := List.length (log w).

(** How the outside answers.  The number is the moment of the call: the
    count of calls made before it. *)
Record Services := {
  GEMINI_API_KEY : option jsstring;
  backend : nat -> jsstring -> attempt_outcome;
  cuid : nat -> jsstring;
  conversation_findUnique : nat -> jsstring -> completion bool;
  conversation_create : nat -> jsstring -> completion jsstring;
  message_create : nat -> completion unit;
  message_findMany : nat -> completion (list Row);
  redisEnabled : nat -> bool;
  redis_is_set : nat -> bool;
  redis_get : nat -> completion (option jsstring);
  redis_setex : nat -> completion unit;
  JSON_parse : jsstring -> completion parsed_json;
  JSON_stringify : list Turn -> jsstring
}.

Definition Route (A : Type) : Type := world -> completion A * world.

Definition pure {A} (a : A) : Route A := fun w => (Normal a, w).

Definition and_then {A B} (m : Route A) (k : A -> Route B) : Route B :=
  fun w => match m w with
           | (Normal a, w') => k a w'
           | (Throw e, w') => (Throw e, w')
           end.

Definition try_ {A} (body : Route A) (handler : js_value -> Route A) : Route A :=
  fun w => match body w with
           | (Normal a, w') => (Normal a, w')
           | (Throw e, w') => handler e w'
           end.

(** An awaited call: it is logged, and ends as the outside says. *)
Definition call {A} (e : io_event) (outcome : nat -> completion A) : Route A :=
  fun w => (outcome (moment w),
            {| llm_trace := llm_trace w; log := log w ++ [e];
               llmProvider := llmProvider w |}).

Declare Scope route_scope.
Delimit Scope route_scope with route.
Notation "x <- m ;; k" := (and_then m (fun x => k))
  (at level 61, m at next level, right associativity) : route_scope.
Notation "m ;; k" := (and_then m (fun _ => k))
  (at level 61, right associativity) : route_scope.
Local Open Scope route_scope.

Inductive response :=
| Json200 (reply sessionId : jsstring)
| Json400 (error details : jsstring)
| Json500 (error message : jsstring).

(** The result of [messageSchema.safeParse(req.body)]: the message of
    the first issue if there is one, or the parsed data. *)
Inductive safeParse_result :=
| ParseFailure (first_issue : option jsstring)
| ParseSuccess (message : jsstring) (sessionId : option jsstring).

Section Handlers.

Variable S : Services.

Definition new_cuid : Route jsstring :=
  fun w => let id := cuid S (moment w) in
           (Normal id,
            {| llm_trace := llm_trace w; log := log w ++ [NewId id];
               llmProvider := llmProvider w |}).

(* ------------------------------------------------------------------ *)
(** *** [services/redis.ts] *)

Definition cache_key (conversationId : jsstring) : jsstring :=
  lit "conv:" ++ conversationId.

(** [!redisEnabled || !redis], read when the function is entered. *)
Definition cache_off : Route bool :=
  fun w => (Normal (negb (redisEnabled S (moment w)) || negb (redis_is_set S (moment w))), w).

Definition getCachedMessages (conversationId : jsstring) : Route (option (list Turn)) :=
  off <- cache_off ;;
  if off then pure None
  else
    found <-
      try_
        (cached <- call (RedisGet (cache_key conversationId)) (redis_get S) ;;
         if missing cached then pure None
         else
           match cached with
           | None => pure None
           | Some text =>
               try_
                 (fun w => match JSON_parse S text with
                           | Normal (JsonArray items) => (Normal (Some (Some items)), w)
                           | Normal JsonOther => (Normal None, w)
                           | Throw e => (Throw e, w)
                           end)
                 (fun parseError => pure (Some None))
           end)
        (fun error => pure None) ;;
    match found with
    | Some returned => pure returned
    | None => pure None
    end.

Definition cacheMessages (conversationId : jsstring) (messages : list Turn) : Route unit :=
  off <- cache_off ;;
  if off then pure tt
  else
    try_
      (let toCache := array_slice messages (-20) None in
       call (RedisSetex (cache_key conversationId) 3600 (JSON_stringify S toCache))
            (redis_setex S))
      (fun error => pure tt).

(* ------------------------------------------------------------------ *)
(** *** [routes/chat.ts] *)

Definition getLLMProvider : Route GeminiProvider :=
  fun w =>
    match llmProvider w with
    | Some provider => (Normal provider, w)
    | None =>
        match createLLMProvider (GEMINI_API_KEY S) with
        | Normal provider =>
            (Normal provider,
             {| llm_trace := llm_trace w; log := log w; llmProvider := Some provider |})
        | Throw error => (Throw error, w)
        end
    end.

(** [provider.generateReply(history, userMessage)] *)
Definition provider_generateReply (provider : GeminiProvider)
    (history : list Turn) (userMessage : jsstring) : Route jsstring :=
  fun w =>
    let (reply, t) := generateReply (backend S) history userMessage (llm_trace w) in
    (reply, {| llm_trace := t; log := log w; llmProvider := llmProvider w |}).

(** The reply the handler falls back on. *)
Definition ROUTE_FALLBACK : jsstring :=
  lit "Sorry " ++ EM_DASH
  ++ lit " our support agent is having trouble right now. Please try again shortly.".

Definition create_conversation : Route jsstring :=
  id <- new_cuid ;;
  call (ConversationCreate id) (fun n => conversation_create S n id).

Definition resolve_conversation (sessionId : option jsstring) : Route jsstring :=
  if missing sessionId then create_conversation
  else
    match sessionId with
    | None => create_conversation
    | Some sid =>
        try_
          (existing <- call (ConversationFindUnique sid)
                            (fun n => conversation_findUnique S n sid) ;;
           if existing : bool then pure sid else create_conversation)
          (fun dbError => create_conversation)
    end.

Definition save_message (conversationId sender text : jsstring) : Route unit :=
  try_
    (id <- new_cuid ;;
     call (MessageCreate id conversationId sender text) (message_create S))
    (fun dbError => pure tt).

Definition fetch_history (conversationId : jsstring) : Route (list Row) :=
  try_
    (call (MessageFindMany conversationId 20) (message_findMany S))
    (fun dbError => pure []).

Definition turn_of_row (msg : Row) : Turn :=
  {| sender := row_sender msg; text := row_text msg |}.

Definition choose_history (cachedHistory : option (list Turn)) (historyMessages : list Row)
  : list Turn :=
  match cachedHistory with
  | Some cached =>
      if Z.of_nat (List.length cached) =? Z.of_nat (List.length historyMessages)
      then cached
      else List.map turn_of_row historyMessages
  | None => List.map turn_of_row historyMessages
  end.

Definition generate_ai_reply (history : list Turn) (trimmedMessage : jsstring)
  : Route jsstring :=
  try_
    (provider <- getLLMProvider ;;
     provider_generateReply provider history trimmedMessage)
    (fun error => pure ROUTE_FALLBACK).

Definition updated_history (history : list Turn) (sanitizedMessage aiReply : jsstring)
  : list Turn :=
  array_slice
    (history ++ [ {| sender := lit "user"; text := sanitizedMessage |};
                  {| sender := lit "ai"; text := aiReply |} ])
    (-20) None.

(** The handler of [POST /message], from the result of validation on. *)
Definition post_message (validationResult : safeParse_result) : Route response :=
  try_
    (match validationResult with
     | ParseFailure first_issue =>
         pure (Json400 (lit "Invalid request")
                 (if missing first_issue then lit "Validation failed"
                  else match first_issue with
                       | Some m => m
                       | None => lit "Validation failed"
                       end))
     | ParseSuccess message sessionId =>
         let trimmedMessage := trim message in
         if length trimmedMessage =? 0
         then pure (Json400 (lit "Invalid request") (lit "Message cannot be empty"))
         else
           let sanitizedMessage := sanitizeInput trimmedMessage in
           conversationId <- resolve_conversation sessionId ;;
           save_message conversationId (lit "user") sanitizedMessage ;;
           historyMessages <- fetch_history conversationId ;;
           cachedHistory <- getCachedMessages conversationId ;;
           let history := choose_history cachedHistory historyMessages in
           aiReply <- generate_ai_reply history trimmedMessage ;;
           save_message conversationId (lit "ai") aiReply ;;
           let updatedHistory := updated_history history sanitizedMessage aiReply in
           cacheMessages conversationId updatedHistory ;;
           pure (Json200 aiReply conversationId)
     end)
    (fun error =>
       pure (Json500 (lit "An error occurred processing your message")
               (lit "Please try again shortly."))).

End Handlers.

(** The rows the handler goes on with after the history read made at a
    given moment: what the database returned, or none if it failed. *)
Definition rows_read (S : Services) (n : nat) : list Row :=
  match message_findMany S n with
  | Normal rows => rows
  | Throw _ => []
  end.

(** What a cache that is on yields for the read made at a given moment:
    the array stored, if a string that is not empty was stored and
    parses to an array. *)
Definition cache_read (S : Services) (n : nat) : option (list Turn) :=
  match redis_get S n with
  | Normal (Some cached) =>
      if falsy cached then None
      else match JSON_parse S cached with
           | Normal (JsonArray items) => Some items
           | Normal JsonOther | Throw _ => None
           end
  | Normal None | Throw _ => None
  end.

(** A request on a process that has served none yet. *)
Definition fresh_world : world :=
  {| llm_trace := []; log := []; llmProvider := None |}.

End Server.

(* ================================================================== *)
(** ** Scenarios for the chat route *)
(* ================================================================== *)

Module ServerScenarios.
Import Gemini Scenarios Server.

(** Everything outside works, the cache is off, the session is not known,
    the backend answers at once. *)
Definition all_is_well (key : option jsstring) : Services :=
  {| GEMINI_API_KEY := key;
     backend := answers_at_once;
     cuid := fun n => repeat 99%N (Datatypes.S n);
     conversation_findUnique := fun _ _ => Normal false;
     conversation_create := fun _ id => Normal id;
     message_create := fun _ => Normal tt;
     message_findMany := fun _ => Normal [];
     redisEnabled := fun _ => false;
     redis_is_set := fun _ => false;
     redis_get := fun _ => Normal None;
     redis_setex := fun _ => Normal tt;
     JSON_parse := fun _ => Normal JsonOther;
     JSON_stringify := fun _ => [] |}.

(** The same, with Redis connected and nothing stored in it yet. *)
Definition cache_is_on : Services :=
  {| GEMINI_API_KEY := Some (lit "key");
     backend := answers_at_once;
     cuid := fun n => repeat 99%N (Datatypes.S n);
     conversation_findUnique := fun _ _ => Normal false;
     conversation_create := fun _ id => Normal id;
     message_create := fun _ => Normal tt;
     message_findMany := fun _ => Normal [];
     redisEnabled := fun _ => true;
     redis_is_set := fun _ => true;
     redis_get := fun _ => Normal None;
     redis_setex := fun _ => Normal tt;
     JSON_parse := fun _ => Normal JsonOther;
     JSON_stringify := fun messages => formatHistory messages |}.

Definition DATABASE_DOWN : js_value := ErrorInstance (lit "Can't reach database server").

(** A conversation can still be created, but nothing can be read or
    written after that; Redis is connected and fails too; the backend
    times out. *)
Definition only_conversations_work : Services :=
  {| GEMINI_API_KEY := Some (lit "key");
     backend := always_times_out;
     cuid := fun n => repeat 99%N (Datatypes.S n);
     conversation_findUnique := fun _ _ => Throw DATABASE_DOWN;
     conversation_create := fun _ id => Normal id;
     message_create := fun _ => Throw DATABASE_DOWN;
     message_findMany := fun _ => Throw DATABASE_DOWN;
     redisEnabled := fun _ => true;
     redis_is_set := fun _ => true;
     redis_get := fun _ => Throw (ErrorInstance (lit "Connection is closed."));
     redis_setex := fun _ => Throw (ErrorInstance (lit "Connection is closed."));
     JSON_parse := fun _ => Throw (ErrorInstance (lit "Unexpected token"));
     JSON_stringify := fun _ => [] |}.

End ServerScenarios.

(* ================================================================== *)
(** ** The key checking script *)
(* ================================================================== *)

(** The line by which the script that checks the API key shows which key
    it is using. *)
Module CheckKey.

(** [s.substring(start, end)]: both indices are clamped to the string
    and put in order. *)
Definition substring (s : jsstring) (start : Z) (end_ : option Z) : jsstring :=
  let len := length s in
  let clamp := fun i => Z.min (Z.max i 0) len in
  let finalStart := clamp start in
  let finalEnd := match end_ with
                  | None => len
                  | Some e => clamp e
                  end in
  let from := Z.min finalStart finalEnd in
  let to := Z.max finalStart finalEnd in
  firstn (Z.to_nat (to - from)) (skipn (Z.to_nat from) s).

Definition api_key_line (apiKey : jsstring) : jsstring :=
  lit "API Key: " ++ substring apiKey 0 (Some 10) ++ lit "..."
  ++ substring apiKey (length apiKey - 4) None ++ LF.

End CheckKey.

(* ================================================================== *)
(** ** Facts about strings *)
(* ================================================================== *)

Module JsFacts.

Lemma length_nonneg (s : jsstring) : 0 <= length s.
Proof. unfold length. lia. Qed.

Lemma length_app (s t : jsstring) : length (s ++ t) = length s + length t.
Proof. unfold length. rewrite List.length_app. lia. Qed.

Lemma length_nil_iff (s : jsstring) : length s = 0 <-> s = [].
Proof.
  unfold length. destruct s as [|c s]; cbn [List.length]; split; intros H;
    try reflexivity; try discriminate; lia.
Qed.

(** [s.slice(0, n)] keeps the first [n] code units. *)
Lemma slice_prefix (s : jsstring) (n : Z) :
  0 <= n -> slice s 0 (Some n) = firstn (Z.to_nat n) s.
Proof.
  intros Hn. unfold slice, relative_index.
  pose proof (length_nonneg s) as Hl.
  replace (0 <? 0) with false by reflexivity.
  destruct (Z.ltb_spec n 0) as [Hneg|_]; [lia|].
  rewrite (Z.min_l 0 (length s)) by lia. change (Z.to_nat 0) with O. cbn [skipn].
  rewrite Z.sub_0_r, Z.max_l by lia.
  destruct (Z.le_ge_cases n (length s)) as [Hle|Hge].
  - rewrite Z.min_l by lia. reflexivity.
  - rewrite Z.min_r by lia. unfold length in *.
    rewrite Nat2Z.id, !firstn_all2; [reflexivity | lia | lia].
Qed.

(** [s.slice(-n)] keeps the last [n] code units, all of [s] if it has
    fewer. *)
Lemma slice_suffix (s : jsstring) (n : Z) :
  0 < n -> slice s (- n) None = skipn (Z.to_nat (length s - n)) s.
Proof.
  intros Hn. unfold slice, relative_index.
  pose proof (length_nonneg s) as Hl.
  destruct (Z.ltb_spec (- n) 0) as [_|Hge]; [|lia].
  replace (length s + - n) with (length s - n) by lia.
  destruct (Z.le_ge_cases (length s - n) 0) as [Hle|Hge].
  - rewrite (Z.max_r (length s - n) 0) by lia.
    replace (Z.to_nat (length s - n)) with O by lia.
    change (Z.to_nat 0) with O. cbn [skipn].
    rewrite Z.sub_0_r, Z.max_l by lia.
    unfold length. rewrite Nat2Z.id. apply firstn_all.
  - rewrite (Z.max_l (length s - n) 0) by lia.
    rewrite Z.max_l by lia.
    apply firstn_all2. rewrite length_skipn. unfold length in *. lia.
Qed.

Lemma slice_prefix_length (s : jsstring) (n : Z) :
  0 <= n -> length (slice s 0 (Some n)) = Z.min n (length s).
Proof.
  intros Hn. rewrite slice_prefix by assumption.
  unfold length. rewrite length_firstn. lia.
Qed.

(** Joining from the left equals laying the parts out one after the
    other with the separator between neighbours. *)
Lemma fold_join_app (sep : jsstring) (others : list jsstring) (acc : jsstring) :
  fold_left (fun R next => R ++ sep ++ next) others acc
  = acc ++ flat_map (fun next => sep ++ next) others.
Proof.
  revert acc. induction others as [|x others IH]; intros acc; cbn [fold_left flat_map].
  - symmetry. apply app_nil_r.
  - rewrite IH, <- !app_assoc. reflexivity.
Qed.

Lemma join_cons (sep first : jsstring) (others : list jsstring) :
  join (first :: others) sep
  = first ++ match others with
             | [] => []
             | _ :: _ => sep ++ join others sep
             end.
Proof.
  unfold join at 1. rewrite fold_join_app.
  destruct others as [|x others]; cbn [flat_map].
  - reflexivity.
  - unfold join. rewrite fold_join_app, <- !app_assoc. reflexivity.
Qed.

End JsFacts.

(* ================================================================== *)
(** ** Facts about the retry loop *)
(* ================================================================== *)

Module GeminiFacts.
Import Gemini JsFacts.

Lemma backend_calls_app (w v : trace) :
  backend_calls (w ++ v) = (backend_calls w + backend_calls v)%nat.
Proof. unfold backend_calls. rewrite filter_app, List.length_app. reflexivity. Qed.

Lemma sleeps_app (w v : trace) : sleeps (w ++ v) = sleeps w ++ sleeps v.
Proof.
  induction w as [|e w IH]; cbn [sleeps app]; [reflexivity|].
  destruct (sleep_of e); rewrite IH; reflexivity.
Qed.

Lemma backend_calls_failed_attempt (p : jsstring) (attempt : nat) :
  backend_calls (failed_attempt_events p attempt) = 1%nat.
Proof.
  unfold failed_attempt_events.
  destruct (attempt <? MAX_RETRIES - 1)%nat; reflexivity.
Qed.

Lemma backend_calls_retry_events (p : jsstring) (attempts : list nat) :
  backend_calls (retry_events p attempts) = List.length attempts.
Proof.
  induction attempts as [|a attempts IH]; [reflexivity|].
  unfold retry_events in *. cbn [flat_map List.length].
  rewrite backend_calls_app, backend_calls_failed_attempt, IH. reflexivity.
Qed.

Lemma retry_events_app (p : jsstring) (l1 l2 : list nat) :
  retry_events p (l1 ++ l2) = retry_events p l1 ++ retry_events p l2.
Proof. unfold retry_events. apply flat_map_app. Qed.

Section Loop.

Variable backend : nat -> jsstring -> attempt_outcome.
Variable history : list Turn.
Variable userMessage : jsstring.

Local Abbreviation p := (prompt_of history userMessage).
Local Abbreviation body attempt :=
  (try_catch (try_block backend history userMessage) (catch_block attempt)).

(** One attempt, case by case. *)

Lemma attempt_responds (attempt : nat) (w : trace) (t : jsstring) :
  backend (backend_calls w) p = Responds t ->
  body attempt w
  = (Normal (Returned (if is_blank t then getFallbackMessage
                       else slice (trim t) 0 (Some 2000))),
     w ++ [call_event p]).
Proof.
  intros Hb. unfold try_catch, try_block, bind, race_generateContent.
  fold (prompt_of history userMessage). rewrite Hb.
  destruct (is_blank t); reflexivity.
Qed.

Lemma attempt_throws (attempt : nat) (w : trace) (e : js_value) :
  thrown_by (backend (backend_calls w) p) = Some e ->
  body attempt w = catch_block attempt e (w ++ [call_event p]).
Proof.
  intros Hb. unfold try_catch, try_block, bind, race_generateContent.
  fold (prompt_of history userMessage).
  destruct (backend (backend_calls w) p) as [t|c e'|]; cbn [thrown_by] in Hb;
    [discriminate | | ]; injection Hb as <-; reflexivity.
Qed.

Lemma attempt_non_retryable (attempt : nat) (w : trace) :
  non_retryable_failure (backend (backend_calls w) p) = true ->
  body attempt w = (Normal (Returned getFallbackMessage), w ++ [call_event p]).
Proof.
  unfold non_retryable_failure. intros Hb.
  destruct (thrown_by (backend (backend_calls w) p)) as [e|] eqn:He; [|discriminate].
  rewrite (attempt_throws attempt w e He).
  destruct e as [message|as_string|thrown];
    [|vm_compute in Hb; discriminate Hb|vm_compute in Hb; discriminate Hb].
  unfold catch_block, as_Error, bind, ret. cbn [errorMessage_of] in *.
  rewrite Hb. reflexivity.
Qed.

Lemma attempt_retryable (attempt : nat) (w : trace) :
  retryable_failure (backend (backend_calls w) p) = true ->
  body attempt w = (Normal FellThrough, w ++ failed_attempt_events p attempt).
Proof.
  unfold retryable_failure. intros Hb.
  destruct (thrown_by (backend (backend_calls w) p)) as [e|] eqn:He; [|discriminate].
  rewrite (attempt_throws attempt w e He).
  apply andb_true_iff in Hb. destruct Hb as [Hconv Hb].
  apply negb_true_iff in Hb.
  assert (Hcatch : catch_block attempt e (w ++ [call_event p])
                   = (if non_retryable (errorMessage_of e)
                      then ret (Returned getFallbackMessage)
                      else if (attempt <? MAX_RETRIES - 1)%nat
                           then bind (sleep (backoff_delay attempt)) (fun _ => ret FellThrough)
                           else ret FellThrough) (w ++ [call_event p])).
  { destruct e as [message|as_string|thrown]; [reflexivity | reflexivity | discriminate Hconv]. }
  rewrite Hcatch, Hb. unfold failed_attempt_events.
  destruct (attempt <? MAX_RETRIES - 1)%nat.
  - unfold bind, sleep, emit, ret. rewrite <- app_assoc. reflexivity.
  - reflexivity.
Qed.

(** When the conversion of the caught value throws, what it throws
    leaves the [catch] clause, and with it the function. *)
Lemma attempt_catch_throws (attempt : nat) (w : trace) :
  catch_throws (backend (backend_calls w) p) = true ->
  exists thrown,
    thrown_by (backend (backend_calls w) p) = Some (Unconvertible thrown)
    /\ body attempt w = (Throw thrown, w ++ [call_event p]).
Proof.
  unfold catch_throws. intros Hb.
  destruct (thrown_by (backend (backend_calls w) p)) as [e|] eqn:He; [|discriminate].
  destruct e as [message|as_string|thrown]; try discriminate Hb.
  exists thrown. split; [reflexivity|].
  rewrite (attempt_throws attempt w _ He). reflexivity.
Qed.

(** Every outcome is of exactly one of four kinds. *)
Lemma outcome_cases (o : attempt_outcome) :
  (exists t, o = Responds t)
  \/ non_retryable_failure o = true
  \/ retryable_failure o = true
  \/ catch_throws o = true.
Proof.
  unfold non_retryable_failure, retryable_failure, catch_throws.
  destruct o as [t|c e|]; cbn [thrown_by].
  - left. exists t. reflexivity.
  - right. destruct e as [message|as_string|thrown]; cbn [conversion_throws negb andb];
      [destruct (non_retryable (errorMessage_of (ErrorInstance message))); auto
      | right; left; reflexivity
      | right; right; reflexivity].
  - right. right. left. reflexivity.
Qed.

Lemma retryable_not_throwing (o : attempt_outcome) :
  retryable_failure o = true -> catch_throws o = false.
Proof.
  unfold retryable_failure, catch_throws.
  destruct (thrown_by o) as [e|]; [|reflexivity].
  destruct (conversion_throws e); [discriminate | reflexivity].
Qed.

Lemma for_attempts_cons (attempt : nat) (later : list nat) (w : trace) :
  for_attempts backend history userMessage (attempt :: later) w
  = match body attempt w with
    | (Normal (Returned value), w') => (Normal value, w')
    | (Normal FellThrough, w') => for_attempts backend history userMessage later w'
    | (Throw e, w') => (Throw e, w')
    end.
Proof.
  cbn [for_attempts]. unfold bind at 1.
  destruct (body attempt w) as [[[v|]|e] w']; reflexivity.
Qed.

(** Attempts that fail and are retried leave their events and nothing
    else; the loop goes on with what is left of it. *)
Lemma for_attempts_skip (failed later : list nat) (w : trace) :
  (forall k, (k < List.length failed)%nat ->
             retryable_failure (backend (backend_calls w + k) p) = true) ->
  for_attempts backend history userMessage (failed ++ later) w
  = for_attempts backend history userMessage later (w ++ retry_events p failed).
Proof.
  revert w. induction failed as [|a failed IH]; intros w Hall.
  - cbn [app retry_events flat_map]. rewrite app_nil_r. reflexivity.
  - cbn [app]. rewrite for_attempts_cons.
    rewrite (attempt_retryable a w).
    2:{ specialize (Hall O). rewrite Nat.add_0_r in Hall. apply Hall. cbn. lia. }
    rewrite IH.
    + unfold retry_events. cbn [flat_map]. rewrite <- app_assoc. reflexivity.
    + intros k Hk. rewrite backend_calls_app, backend_calls_failed_attempt.
      replace (backend_calls w + 1 + k)%nat with (backend_calls w + S k)%nat by lia.
      apply Hall. cbn. lia.
Qed.

(** The loop only ever adds events, and a loop with an attempt left
    starts with a backend call on the prompt. *)
Lemma for_attempts_extends (attempts : list nat) (w : trace) :
  exists added,
    snd (for_attempts backend history userMessage attempts w) = w ++ added
    /\ (attempts <> [] -> exists rest, added = call_event p :: rest).
Proof.
  revert w. induction attempts as [|a attempts IH]; intros w.
  - exists []. cbn. rewrite app_nil_r. split; [reflexivity | congruence].
  - rewrite for_attempts_cons.
    destruct (outcome_cases (backend (backend_calls w) p)) as [[t Ht]|[Hn|[Hr|Hc]]].
    + rewrite (attempt_responds a w t Ht). exists [call_event p].
      split; [reflexivity | intros _; exists []; reflexivity].
    + rewrite (attempt_non_retryable a w Hn). exists [call_event p].
      split; [reflexivity | intros _; exists []; reflexivity].
    + rewrite (attempt_retryable a w Hr).
      destruct (IH (w ++ failed_attempt_events p a)) as [added [Hadd _]].
      exists (failed_attempt_events p a ++ added).
      rewrite Hadd, <- app_assoc. split; [reflexivity|].
      intros _. unfold failed_attempt_events. cbn [app]. eexists. reflexivity.
    + destruct (attempt_catch_throws a w Hc) as [thrown [_ Hbody]]. rewrite Hbody.
      exists [call_event p].
      split; [reflexivity | intros _; exists []; reflexivity].
Qed.

(** How the loop ends: it returns the fallback, or the capped text of the
    first attempt that did not fail, or it throws what the conversion of
    a caught value threw, the attempts before having failed and been
    retried. *)
Lemma for_attempts_ends (attempts : list nat) (w : trace) :
  exists result w',
    for_attempts backend history userMessage attempts w = (result, w')
    /\ match result with
       | Normal reply =>
           reply = getFallbackMessage
           \/ exists k t,
                (k < List.length attempts)%nat
                /\ (forall j, (j < k)%nat ->
                      retryable_failure (backend (backend_calls w + j) p) = true)
                /\ backend (backend_calls w + k) p = Responds t
                /\ is_blank t = false
                /\ reply = slice (trim t) 0 (Some 2000)
       | Throw thrown =>
           exists k,
             (k < List.length attempts)%nat
             /\ (forall j, (j < k)%nat ->
                   retryable_failure (backend (backend_calls w + j) p) = true)
             /\ thrown_by (backend (backend_calls w + k) p) = Some (Unconvertible thrown)
       end.
Proof.
  revert w. induction attempts as [|a attempts IH]; intros w.
  - exists (Normal getFallbackMessage), w. split; [reflexivity | left; reflexivity].
  - rewrite for_attempts_cons.
    destruct (outcome_cases (backend (backend_calls w) p)) as [[t Ht]|[Hn|[Hr|Hc]]].
    + rewrite (attempt_responds a w t Ht).
      destruct (is_blank t) eqn:Hblank.
      * eexists (Normal _), _. split; [reflexivity | left; reflexivity].
      * eexists (Normal _), _. split; [reflexivity | right].
        exists O, t. rewrite Nat.add_0_r.
        split; [cbn [List.length]; lia|].
        split; [intros j Hj; lia|].
        split; [exact Ht|]. split; [exact Hblank | reflexivity].
    + rewrite (attempt_non_retryable a w Hn).
      eexists (Normal _), _. split; [reflexivity | left; reflexivity].
    + rewrite (attempt_retryable a w Hr).
      destruct (IH (w ++ failed_attempt_events p a)) as [result [w' [Hrun Hres]]].
      exists result, w'. split; [exact Hrun|].
      assert (Hshift : forall k,
                (backend_calls (w ++ failed_attempt_events p a) + k
                 = backend_calls w + S k)%nat).
      { intros k. rewrite backend_calls_app, backend_calls_failed_attempt. lia. }
      assert (Hprefix : forall k,
                (forall j, (j < k)%nat ->
                   retryable_failure
                     (backend (backend_calls (w ++ failed_attempt_events p a) + j) p) = true) ->
                forall j, (j < S k)%nat ->
                   retryable_failure (backend (backend_calls w + j) p) = true).
      { intros k Hbefore [|j] Hj.
        - rewrite Nat.add_0_r. exact Hr.
        - rewrite <- Hshift. apply Hbefore. lia. }
      destruct result as [reply|thrown].
      * destruct Hres as [Hfb|[k [t [Hk [Hbefore [Hresp [Hblank Hreply]]]]]]];
          [left; exact Hfb | right].
        exists (S k), t. rewrite <- Hshift.
        split; [cbn [List.length]; lia|].
        split; [apply Hprefix; exact Hbefore|].
        split; [exact Hresp|]. split; [exact Hblank | exact Hreply].
      * destruct Hres as [k [Hk [Hbefore Hthrown]]].
        exists (S k). rewrite <- Hshift.
        split; [cbn [List.length]; lia|].
        split; [apply Hprefix; exact Hbefore | exact Hthrown].
    + destruct (attempt_catch_throws a w Hc) as [thrown [Hthrown Hbody]]. rewrite Hbody.
      eexists (Throw thrown), _. split; [reflexivity|].
      exists O. rewrite Nat.add_0_r.
      split; [cbn [List.length]; lia|]. split; [intros j Hj; lia | exact Hthrown].
Qed.

(** Where the conversion of no caught value throws, the loop returns. *)
Lemma for_attempts_returns (attempts : list nat) (w : trace) :
  (forall k, (k < List.length attempts)%nat ->
             catch_throws (backend (backend_calls w + k) p) = false) ->
  exists reply w',
    for_attempts backend history userMessage attempts w = (Normal reply, w')
    /\ (reply = getFallbackMessage
        \/ exists k t,
             (k < List.length attempts)%nat
             /\ (forall j, (j < k)%nat ->
                           retryable_failure (backend (backend_calls w + j) p) = true)
             /\ backend (backend_calls w + k) p = Responds t
             /\ is_blank t = false
             /\ reply = slice (trim t) 0 (Some 2000)).
Proof.
  intros Hsafe.
  destruct (for_attempts_ends attempts w) as [[reply|thrown] [w' [Hrun Hres]]].
  - exists reply, w'. split; [exact Hrun | exact Hres].
  - destruct Hres as [k [Hk [_ Hthrown]]]. specialize (Hsafe k Hk).
    unfold catch_throws in Hsafe. rewrite Hthrown in Hsafe. discriminate Hsafe.
Qed.

(** Every backend call of the loop is made on the same prompt. *)
Lemma for_attempts_calls_same_prompt (attempts : list nat) (w : trace) :
  exists added,
    snd (for_attempts backend history userMessage attempts w) = w ++ added
    /\ Forall (fun e => is_call e = true -> e = call_event p) added.
Proof.
  revert w. induction attempts as [|a attempts IH]; intros w.
  - exists []. cbn. rewrite app_nil_r. split; [reflexivity | constructor].
  - rewrite for_attempts_cons.
    destruct (outcome_cases (backend (backend_calls w) p)) as [[t Ht]|[Hn|[Hr|Hc]]].
    + rewrite (attempt_responds a w t Ht). exists [call_event p].
      split; [reflexivity | repeat constructor].
    + rewrite (attempt_non_retryable a w Hn). exists [call_event p].
      split; [reflexivity | repeat constructor].
    + rewrite (attempt_retryable a w Hr).
      destruct (IH (w ++ failed_attempt_events p a)) as [added [Hadd Hall]].
      exists (failed_attempt_events p a ++ added).
      rewrite Hadd, <- app_assoc. split; [reflexivity|].
      apply Forall_app. split; [|exact Hall].
      unfold failed_attempt_events.
      destruct (a <? MAX_RETRIES - 1)%nat; repeat constructor; discriminate.
    + destruct (attempt_catch_throws a w Hc) as [thrown [_ Hbody]]. rewrite Hbody.
      exists [call_event p].
      split; [reflexivity | repeat constructor].
Qed.

(** After [k] retried failures the loop is at attempt [k]. *)
Lemma generateReply_after_retries (k : nat) (w : trace) :
  (k <= MAX_RETRIES)%nat ->
  (forall j, (j < k)%nat ->
             retryable_failure (backend (backend_calls w + j) p) = true) ->
  generateReply backend history userMessage w
  = for_attempts backend history userMessage (seq k (MAX_RETRIES - k))
      (w ++ retry_events p (seq 0 k)).
Proof.
  intros Hk Hall. unfold generateReply.
  replace MAX_RETRIES with (k + (MAX_RETRIES - k))%nat at 1 by lia.
  rewrite seq_app. cbn [Nat.add].
  apply for_attempts_skip. rewrite length_seq. exact Hall.
Qed.

Lemma retry_events_snoc (k : nat) :
  (k < MAX_RETRIES - 1)%nat ->
  retry_events p (seq 0 (S k))
  = retry_events p (seq 0 k) ++ [call_event p; Sleep (backoff_delay k)].
Proof.
  intros Hk. rewrite seq_S, retry_events_app. cbn [Nat.add].
  unfold retry_events at 2. cbn [flat_map]. unfold failed_attempt_events.
  apply Nat.ltb_lt in Hk. rewrite Hk, app_nil_r. reflexivity.
Qed.

End Loop.

(** The loop reads the backend only through the outcomes of the calls it
    makes: two backends that agree on them drive it the same way. *)
Lemma for_attempts_agree (b1 b2 : nat -> jsstring -> attempt_outcome)
    (history : list Turn) (userMessage : jsstring)
    (attempts : list nat) (w1 w2 : trace) :
  (forall k, (k < List.length attempts)%nat ->
     b1 (backend_calls w1 + k)%nat (prompt_of history userMessage)
     = b2 (backend_calls w2 + k)%nat (prompt_of history userMessage)) ->
  exists reply added,
    for_attempts b1 history userMessage attempts w1 = (reply, w1 ++ added)
    /\ for_attempts b2 history userMessage attempts w2 = (reply, w2 ++ added).
Proof.
  revert w1 w2. induction attempts as [|a attempts IH]; intros w1 w2 Hagree.
  - exists (Normal getFallbackMessage), []. cbn. rewrite !app_nil_r. split; reflexivity.
  - rewrite !for_attempts_cons.
    pose proof (Hagree O ltac:(cbn; lia)) as H0. rewrite !Nat.add_0_r in H0.
    destruct (outcome_cases (b1 (backend_calls w1) (prompt_of history userMessage)))
      as [[t Ht]|[Hn|[Hr|Hc]]].
    + rewrite (attempt_responds b1 _ _ a w1 t Ht).
      rewrite H0 in Ht. rewrite (attempt_responds b2 _ _ a w2 t Ht).
      eexists _, _. split; reflexivity.
    + rewrite (attempt_non_retryable b1 _ _ a w1 Hn).
      rewrite H0 in Hn. rewrite (attempt_non_retryable b2 _ _ a w2 Hn).
      eexists _, _. split; reflexivity.
    + rewrite (attempt_retryable b1 _ _ a w1 Hr).
      rewrite H0 in Hr. rewrite (attempt_retryable b2 _ _ a w2 Hr).
      destruct (IH (w1 ++ failed_attempt_events (prompt_of history userMessage) a)
                   (w2 ++ failed_attempt_events (prompt_of history userMessage) a))
        as [reply [added [H1 H2]]].
      * intros k Hk. rewrite !backend_calls_app, !backend_calls_failed_attempt.
        replace (backend_calls w1 + 1 + k)%nat with (backend_calls w1 + S k)%nat by lia.
        replace (backend_calls w2 + 1 + k)%nat with (backend_calls w2 + S k)%nat by lia.
        apply Hagree. cbn. lia.
      * exists reply, (failed_attempt_events (prompt_of history userMessage) a ++ added).
        rewrite H1, H2, <- !app_assoc. split; reflexivity.
    + destruct (attempt_catch_throws b1 _ _ a w1 Hc) as [thrown [Hthrown Hbody1]].
      rewrite Hbody1. rewrite H0 in Hc, Hthrown.
      destruct (attempt_catch_throws b2 _ _ a w2 Hc) as [thrown' [Hthrown' Hbody2]].
      rewrite Hbody2. rewrite Hthrown in Hthrown'. injection Hthrown' as <-.
      eexists _, _. split; reflexivity.
Qed.

(** Against a backend that is a function of the prompt alone, a second
    call right after the first returns the same reply. *)
Lemma generateReply_twice (f : jsstring -> attempt_outcome)
    (history : list Turn) (userMessage : jsstring) (w : trace) :
  fst (generateReply (fun _ => f) history userMessage
         (snd (generateReply (fun _ => f) history userMessage w)))
  = fst (generateReply (fun _ => f) history userMessage w).
Proof.
  unfold generateReply.
  destruct (for_attempts_agree (fun _ => f) (fun _ => f) history userMessage
              (seq 0 MAX_RETRIES) w
              (snd (for_attempts (fun _ => f) history userMessage (seq 0 MAX_RETRIES) w)))
    as [reply [added [H1 H2]]]; [reflexivity|].
  rewrite H2, H1. reflexivity.
Qed.

End GeminiFacts.

(* ================================================================== *)
(** ** Facts about trimming, searching and truncating *)
(* ================================================================== *)

Module PromptFacts.
Import Gemini JsFacts.

Lemma trimStart_nil_iff (s : jsstring) :
  trimStart s = [] <-> forallb is_whitespace s = true.
Proof.
  induction s as [|c s IH]; cbn [trimStart forallb].
  - split; reflexivity.
  - destruct (is_whitespace c); cbn [andb]; [exact IH|].
    split; discriminate.
Qed.

Lemma forallb_trimStart (s : jsstring) :
  forallb is_whitespace (trimStart s) = forallb is_whitespace s.
Proof.
  induction s as [|c s IH]; cbn [trimStart]; [reflexivity|].
  destruct (is_whitespace c) eqn:Hc; cbn [forallb]; rewrite Hc; [exact IH | reflexivity].
Qed.

Lemma forallb_rev (f : code_unit -> bool) (s : jsstring) :
  forallb f (rev s) = forallb f s.
Proof.
  induction s as [|c s IH]; cbn [rev forallb]; [reflexivity|].
  rewrite forallb_app, IH. cbn [forallb]. rewrite andb_true_r. apply andb_comm.
Qed.

Lemma rev_nil_iff (s : jsstring) : rev s = [] <-> s = [].
Proof.
  split; intros H.
  - rewrite <- (rev_involutive s), H. reflexivity.
  - rewrite H. reflexivity.
Qed.

(** [trim] leaves nothing exactly when there was only white space. *)
Lemma trim_nil_iff (s : jsstring) :
  trim s = [] <-> forallb is_whitespace s = true.
Proof.
  unfold trim, trimEnd.
  rewrite rev_nil_iff, trimStart_nil_iff, forallb_rev, forallb_trimStart.
  reflexivity.
Qed.

Lemma is_whitespace_In (c : code_unit) :
  is_whitespace c = true <-> In c white_space.
Proof.
  split.
  - unfold is_whitespace. intros H.
    repeat match goal with
           | H : (_ || _)%bool = true |- _ => apply orb_true_iff in H; destruct H as [H|H]
           | H : (_ && _)%bool = true |- _ => apply andb_true_iff in H; destruct H as [H ?]
           | H : (_ <=? _)%N = true |- _ => apply N.leb_le in H
           | H : (_ =? _)%N = true |- _ => apply N.eqb_eq in H
           end;
      try (subst c; cbn; tauto).
    + assert (c = 9 \/ c = 10 \/ c = 11 \/ c = 12 \/ c = 13)%N as Hc by lia.
      cbn. intuition.
    + assert (c = 8192 \/ c = 8193 \/ c = 8194 \/ c = 8195 \/ c = 8196 \/ c = 8197
              \/ c = 8198 \/ c = 8199 \/ c = 8200 \/ c = 8201 \/ c = 8202)%N as Hc by lia.
      cbn. intuition.
  - intros H. cbn in H.
    repeat (destruct H as [H|H]; [subst c; reflexivity|]). contradiction.
Qed.

Lemma all_white_space (s : jsstring) :
  forallb is_whitespace s = true <-> Forall (fun c => In c white_space) s.
Proof.
  rewrite forallb_forall, Forall_forall.
  split; intros H c Hc; apply is_whitespace_In, H, Hc.
Qed.

Lemma not_white_space (c : code_unit) :
  is_whitespace c = false <-> ~ In c white_space.
Proof.
  rewrite <- is_whitespace_In. destruct (is_whitespace c); split; congruence.
Qed.

Lemma trimStart_decompose (s : jsstring) :
  exists lead, s = lead ++ trimStart s /\ forallb is_whitespace lead = true.
Proof.
  induction s as [|c s [lead [Hs Hlead]]]; [exists []; split; reflexivity|].
  cbn [trimStart]. destruct (is_whitespace c) eqn:Hc.
  - exists (c :: lead). split; [cbn [app]; f_equal; exact Hs|].
    cbn [forallb]. rewrite Hc, Hlead. reflexivity.
  - exists []. split; reflexivity.
Qed.

Lemma trimStart_head (s : jsstring) (a : code_unit) (rest : jsstring) :
  trimStart s = a :: rest -> is_whitespace a = false.
Proof.
  induction s as [|c s IH]; cbn [trimStart]; [discriminate|].
  destruct (is_whitespace c) eqn:Hc; [exact IH|].
  intros H. injection H as <- _. exact Hc.
Qed.

Lemma trimStart_snoc (s : jsstring) (a : code_unit) :
  is_whitespace a = false -> trimStart (s ++ [a]) = trimStart s ++ [a].
Proof.
  intros Ha. induction s as [|c s IH]; cbn [app trimStart].
  - rewrite Ha. reflexivity.
  - destruct (is_whitespace c); [exact IH | reflexivity].
Qed.

Lemma trimEnd_cons (a : code_unit) (rest : jsstring) :
  is_whitespace a = false -> trimEnd (a :: rest) = a :: trimEnd rest.
Proof.
  intros Ha. unfold trimEnd. cbn [rev].
  rewrite trimStart_snoc by exact Ha. rewrite rev_app_distr. reflexivity.
Qed.

Lemma trimEnd_decompose (s : jsstring) :
  exists trail, s = trimEnd s ++ trail /\ forallb is_whitespace trail = true.
Proof.
  destruct (trimStart_decompose (rev s)) as [lead [Hs Hlead]].
  exists (rev lead). split.
  - unfold trimEnd. rewrite <- rev_app_distr, <- Hs, rev_involutive. reflexivity.
  - rewrite forallb_rev. exact Hlead.
Qed.

Lemma trimEnd_last (s : jsstring) (a d : code_unit) (rest : jsstring) :
  trimEnd s = a :: rest -> is_whitespace (last (a :: rest) d) = false.
Proof.
  unfold trimEnd. intros H. rewrite <- H.
  destruct (trimStart (rev s)) as [|b r] eqn:E; [discriminate H|].
  cbn [rev]. rewrite last_last. exact (trimStart_head _ _ _ E).
Qed.

(** What [trim] does, said without [trim]: a text with a code unit that
    is not white space is some white space, a core that neither starts
    nor ends with white space, and some white space; [trim] returns the
    core. *)
Lemma trim_decompose (s : jsstring) :
  Exists (fun c => ~ In c white_space) s ->
  exists lead a rest trail,
    s = lead ++ (a :: rest) ++ trail
    /\ Forall (fun c => In c white_space) lead
    /\ Forall (fun c => In c white_space) trail
    /\ ~ In a white_space
    /\ ~ In (last (a :: rest) a) white_space
    /\ trim s = a :: rest.
Proof.
  intros Hex.
  destruct (trimStart_decompose s) as [lead [Hs Hlead]].
  destruct (trimStart s) as [|a rest0] eqn:Hstart.
  - exfalso. apply trimStart_nil_iff in Hstart. apply all_white_space in Hstart.
    apply Exists_exists in Hex. destruct Hex as [c [Hc Hnot]].
    rewrite Forall_forall in Hstart. exact (Hnot (Hstart c Hc)).
  - pose proof (trimStart_head _ _ _ Hstart) as Ha.
    assert (Htrim : trim s = a :: trimEnd rest0).
    { unfold trim. rewrite Hstart. apply trimEnd_cons. exact Ha. }
    destruct (trimEnd_decompose (a :: rest0)) as [trail [Hcore Htrail]].
    rewrite (trimEnd_cons a rest0 Ha) in Hcore.
    exists lead, a, (trimEnd rest0), trail.
    split; [rewrite Hs, Hcore; reflexivity|].
    split; [apply all_white_space; exact Hlead|].
    split; [apply all_white_space; exact Htrail|].
    split; [apply not_white_space; exact Ha|].
    split; [|exact Htrim].
    apply not_white_space. apply (trimEnd_last (a :: rest0)).
    apply trimEnd_cons. exact Ha.
Qed.

Lemma is_blank_iff (t : jsstring) :
  is_blank t = true <-> forallb is_whitespace t = true.
Proof.
  unfold is_blank. destruct t as [|c t]; [split; reflexivity|].
  cbn [falsy orb]. rewrite Z.eqb_eq, length_nil_iff. apply trim_nil_iff.
Qed.

Lemma not_blank_iff (t : jsstring) : is_blank t = false <-> trim t <> [].
Proof.
  rewrite trim_nil_iff, <- is_blank_iff. destruct (is_blank t); split; congruence.
Qed.

Lemma startsWith_app (search rest : jsstring) :
  startsWith (search ++ rest) search = true.
Proof.
  induction search as [|c search IH]; [reflexivity|].
  cbn [app startsWith]. rewrite N.eqb_refl, IH. reflexivity.
Qed.

Lemma includes_app (before search after : jsstring) :
  includes (before ++ search ++ after) search = true.
Proof.
  induction before as [|c before IH]; cbn [app].
  - destruct (search ++ after) eqn:E; cbn [includes]; rewrite <- E, startsWith_app;
      reflexivity.
  - cbn [includes]. rewrite IH. apply orb_true_r.
Qed.

(** The test of [truncateHistory] compares lengths: [n / 4 <= 4000] as
    numbers is [n <= 16000]. *)
Lemma within_budget_iff (s : jsstring) :
  Qle_bool (estimatedTokens s) (inject_Z MAX_INPUT_TOKENS) = true
  <-> length s <= 16000.
Proof.
  rewrite Qle_bool_iff. unfold Qle, estimatedTokens, inject_Z, MAX_INPUT_TOKENS.
  cbn [Qnum Qden]. lia.
Qed.

Lemma over_budget_iff (s : jsstring) :
  (inject_Z MAX_INPUT_TOKENS < estimatedTokens s)%Q <-> 16000 < length s.
Proof.
  unfold Qlt, estimatedTokens, inject_Z, MAX_INPUT_TOKENS. cbn [Qnum Qden]. lia.
Qed.

(** [truncateHistory] drops from the front what exceeds 16000 code
    units. *)
Lemma truncateHistory_skipn (s : jsstring) :
  truncateHistory s = skipn (Z.to_nat (length s - 16000)) s.
Proof.
  unfold truncateHistory.
  destruct (Qle_bool (estimatedTokens s) (inject_Z MAX_INPUT_TOKENS)) eqn:E.
  - apply within_budget_iff in E.
    replace (Z.to_nat (length s - 16000)) with O by lia. reflexivity.
  - change (MAX_INPUT_TOKENS * 4) with 16000. apply slice_suffix. lia.
Qed.

Lemma formatHistory_newline_separated (history : list Turn) :
  formatHistory history = newline_separated (List.map format_turn history).
Proof.
  unfold formatHistory.
  induction (List.map format_turn history) as [|line lines IH]; [reflexivity|].
  rewrite join_cons. destruct lines as [|next lines].
  - cbn [newline_separated]. apply app_nil_r.
  - rewrite IH. reflexivity.
Qed.

Lemma fallback_length : length getFallbackMessage = 80.
Proof. reflexivity. Qed.

Lemma capped_text_usable (t : jsstring) :
  is_blank t = false ->
  slice (trim t) 0 (Some 2000) <> [] /\ length (slice (trim t) 0 (Some 2000)) <= 2000.
Proof.
  intros Hb. apply not_blank_iff in Hb. split.
  - rewrite slice_prefix by lia. destruct (trim t); [congruence | discriminate].
  - rewrite slice_prefix_length by lia. lia.
Qed.

End PromptFacts.

(* ================================================================== *)
(** ** The loop against the state machine *)
(* ================================================================== *)

Module MachineFacts.
Import Gemini GeminiFacts StateMachine.

Section Simulation.

Variable backend : nat -> jsstring -> attempt_outcome.
Variable history : list Turn.
Variable userMessage : jsstring.

Local Abbreviation p := (prompt_of history userMessage).
Local Abbreviation machine := (run backend history userMessage).
Local Abbreviation loop := (for_attempts backend history userMessage).

Lemma run_DONE (steps : nat) (r : jsstring) (w : trace) :
  machine steps (DONE r) w = (DONE r, w).
Proof. induction steps as [|steps IH]; [reflexivity | exact IH]. Qed.

Lemma run_S (steps : nat) (s : state) (w : trace) :
  machine (S steps) s w
  = let (s', w') := step backend history userMessage s w in machine steps s' w'.
Proof. reflexivity. Qed.

(** A failed attempt of the machine, whatever the prompt of its state. *)
Lemma step_failure (i : nat) (q : jsstring) (e : js_value) (w : trace) :
  thrown_by (backend (backend_calls w) q) = Some e ->
  step backend history userMessage (ATTEMPT i q) w
  = on_failure i q e (w ++ [call_event q]).
Proof.
  intros He. cbn [step].
  destruct (backend (backend_calls w) q) as [t|c e'|]; cbn [thrown_by] in He;
    [discriminate | | ]; injection He as <-; reflexivity.
Qed.

(** From any attempt on, where the [catch] clause does not throw, the
    loop, with the prompt it builds at every attempt, and the machine,
    with the prompt its state carries, end with the same reply and the
    same events. *)
Lemma loop_simulates (n i : nat) (w : trace) :
  (i + S n = MAX_RETRIES)%nat ->
  (forall k, (k < S n)%nat ->
             catch_throws (backend (backend_calls w + k) p) = false) ->
  exists reply w',
    loop (seq i (S n)) w = (Normal reply, w')
    /\ machine (S n) (ATTEMPT i p) w = (DONE reply, w').
Proof.
  revert i w. induction n as [|n IH]; intros i w Hi Hsafe;
    cbn [seq]; rewrite for_attempts_cons, run_S;
    (destruct (outcome_cases (backend (backend_calls w) p)) as [[t Ht]|[Hn|[Hr|Hc]]];
     [ rewrite (attempt_responds _ _ _ i w t Ht); cbn [step]; rewrite Ht; unfold capped;
       destruct (is_blank t); rewrite run_DONE; eexists _, _; split; reflexivity
     | rewrite (attempt_non_retryable _ _ _ i w Hn);
       unfold non_retryable_failure in Hn;
       destruct (thrown_by (backend (backend_calls w) p)) as [e|] eqn:He; [|discriminate Hn];
       rewrite (step_failure i p e w He); unfold on_failure; rewrite Hn, run_DONE;
       eexists _, _; split; reflexivity
     |
     | specialize (Hsafe O ltac:(lia)); rewrite Nat.add_0_r in Hsafe; congruence ]).
  - rewrite (attempt_retryable _ _ _ i w Hr).
    unfold retryable_failure in Hr.
    destruct (thrown_by (backend (backend_calls w) p)) as [e|] eqn:He; [|discriminate Hr].
    apply andb_true_iff in Hr. destruct Hr as [_ Hr]. apply negb_true_iff in Hr.
    rewrite (step_failure i p e w He). unfold on_failure, failed_attempt_events.
    rewrite Hr.
    destruct (Nat.ltb_spec i (MAX_RETRIES - 1)) as [Hlt|_]; [lia|].
    exists getFallbackMessage, (w ++ [call_event p]). split; reflexivity.
  - pose proof Hr as Hr'. rewrite (attempt_retryable _ _ _ i w Hr).
    unfold retryable_failure in Hr.
    destruct (thrown_by (backend (backend_calls w) p)) as [e|] eqn:He; [|discriminate Hr].
    apply andb_true_iff in Hr. destruct Hr as [_ Hr]. apply negb_true_iff in Hr.
    rewrite (step_failure i p e w He). unfold on_failure, failed_attempt_events.
    rewrite Hr.
    destruct (Nat.ltb_spec i (MAX_RETRIES - 1)) as [_|Hge]; [|lia].
    replace ((w ++ [call_event p]) ++ [Sleep (backoff_delay i)])
      with (w ++ [call_event p; Sleep (backoff_delay i)])
      by (rewrite <- app_assoc; reflexivity).
    apply IH; [lia|].
    intros k Hk. rewrite backend_calls_app.
    change (backend_calls [call_event p; Sleep (backoff_delay i)]) with 1%nat.
    replace (backend_calls w + 1 + k)%nat with (backend_calls w + S k)%nat by lia.
    apply Hsafe. lia.
Qed.

End Simulation.

End MachineFacts.

(* ================================================================== *)
(** ** Worked examples *)
(* ================================================================== *)

Module Examples.
Import Gemini Scenarios.

(** An immediate answer comes back trimmed, after one call. *)
Example immediate_answer :
  generateReply answers_at_once greeting question []
  = (Normal (lit "30-day returns."), [call_event (prompt_of greeting question)]).
Proof. vm_compute. reflexivity. Qed.

(** Two timeouts and then an answer: three calls, two sleeps. *)
Example answer_on_third_attempt :
  generateReply answers_on_third greeting question []
  = (Normal (lit "Shipped in 5-7 days."),
     [ call_event (prompt_of greeting question); Sleep 1000;
       call_event (prompt_of greeting question); Sleep 2000;
       call_event (prompt_of greeting question) ]).
Proof. vm_compute. reflexivity. Qed.

(** A connection that stays down uses up the three attempts. *)
Example network_down_exhausts :
  let (reply, w) := generateReply network_down greeting question [] in
  reply = Normal getFallbackMessage /\ backend_calls w = 3%nat /\ sleeps w = [1000; 2000].
Proof. vm_compute. repeat split. Qed.

Example two_turns_serialized :
  formatHistory two_turns
  = lit "User: Hi" ++ LF ++ lit "Assistant: Hello, how can I help?".
Proof. reflexivity. Qed.

(** Any sender other than [user] is labelled [Assistant]. *)
Example other_sender_is_assistant :
  format_turn {| sender := lit "system"; text := lit "note" |} = lit "Assistant: note".
Proof. reflexivity. Qed.

(** 16007 code units of history lose their first seven, the role label
    and one more: the cut falls inside the line. *)
Example long_history_is_cut :
  length (formatHistory long_history) = 16007
  /\ truncateHistory (formatHistory long_history) = repeat 97%N (Z.to_nat 16000).
Proof. vm_compute. split; reflexivity. Qed.

(** The messages of the timer and of a value that is not an [Error]
    match none of the five signatures. *)
Example timeout_is_retryable : retryable_failure TimerFiresFirst = true.
Proof. reflexivity. Qed.

Example non_error_is_retryable (c : failure_cause) (as_string : jsstring) :
  retryable_failure (Fails c (NotAnError as_string)) = true.
Proof. reflexivity. Qed.

End Examples.

(* ================================================================== *)
(** ** The properties of [generateReply] *)
(* ================================================================== *)

Module ReplySpec.
Import Gemini JsFacts GeminiFacts PromptFacts StateMachine MachineFacts.
Import Scenarios MoreScenarios.

(** Where the [catch] clause does not throw, [generateReply] returns: the
    reply is not empty and at most 2000 code units long, and it is the
    fixed fallback message unless it is the trimmed, capped text of the
    first attempt that did not fail, all attempts before it having failed
    and been retried. *)
Lemma generateReply_returns_a_usable_reply
    (backend : nat -> jsstring -> attempt_outcome)
    (history : list Turn) (userMessage : jsstring) (w : trace) :
  (forall k, (k < MAX_RETRIES)%nat ->
     catch_throws
       (backend (backend_calls w + k)%nat (prompt_of history userMessage)) = false) ->
  exists reply w',
    generateReply backend history userMessage w = (Normal reply, w')
    /\ reply <> []
    /\ length reply <= 2000
    /\ (reply = getFallbackMessage
        \/ exists k t,
             (k < MAX_RETRIES)%nat
             /\ (forall j, (j < k)%nat ->
                   retryable_failure
                     (backend (backend_calls w + j)%nat (prompt_of history userMessage))
                   = true)
             /\ backend (backend_calls w + k)%nat (prompt_of history userMessage)
                = Responds t
             /\ is_blank t = false
             /\ reply = slice (trim t) 0 (Some 2000)).
Proof.
  intros Hsafe. unfold generateReply.
  destruct (for_attempts_returns backend history userMessage (seq 0 MAX_RETRIES) w)
    as [reply [w' [Hrun Hreply]]].
  { rewrite length_seq. exact Hsafe. }
  rewrite length_seq in Hreply.
  exists reply, w'. split; [exact Hrun|].
  destruct Hreply as [Hfb|[k [t [Hk [Hbefore [Hresp [Hblank Heq]]]]]]].
  - subst reply. split; [discriminate|]. split; [rewrite fallback_length; lia|].
    left. reflexivity.
  - destruct (capped_text_usable t Hblank) as [Hne Hlen]. subst reply.
    split; [exact Hne|]. split; [exact Hlen|].
    right. exists k, t. auto.
Qed.

(** C1 fails on the code.  The [catch] clause converts a caught value
    that is not an [Error] with [String(error)], to keep it in
    [lastError], and that conversion can throw.  When the backend's
    promise is rejected with an object that has no [toString],
    [generateReply] does not return the fallback message: after the one
    backend call it throws the [TypeError] of the conversion to its
    caller. *)
Theorem generateReply_throws_on_a_bare_object :
  generateReply rejects_with_bare_object greeting question []
  = (Throw CANNOT_CONVERT, [call_event (prompt_of greeting question)]).
Proof. vm_compute. reflexivity. Qed.

(** C2. If every one of the [MAX_RETRIES] attempts fails with an error
    the [catch] clause retries, [generateReply] makes exactly
    [MAX_RETRIES] = 3 backend calls, sleeps [RETRY_DELAY_MS * 2^k] after
    failed attempt [k] for [k < MAX_RETRIES - 1], that is 1000 ms and then
    2000 ms, does not sleep after the last attempt, and returns the
    fallback message. *)
Theorem retryable_failures_exhaust_the_attempts
    (backend : nat -> jsstring -> attempt_outcome)
    (history : list Turn) (userMessage : jsstring) (w : trace) :
  (forall k, (k < MAX_RETRIES)%nat ->
     retryable_failure
       (backend (backend_calls w + k)%nat (prompt_of history userMessage)) = true) ->
  exists added,
    generateReply backend history userMessage w = (Normal getFallbackMessage, w ++ added)
    /\ added = [ call_event (prompt_of history userMessage); Sleep 1000;
                 call_event (prompt_of history userMessage); Sleep 2000;
                 call_event (prompt_of history userMessage) ]
    /\ backend_calls added = MAX_RETRIES
    /\ sleeps added = List.map backoff_delay (seq 0 (MAX_RETRIES - 1)).
Proof.
  intros Hall. unfold generateReply.
  exists (retry_events (prompt_of history userMessage) (seq 0 MAX_RETRIES)).
  split; [|split; [reflexivity | split; reflexivity]].
  rewrite <- (app_nil_r (seq 0 MAX_RETRIES)) at 1.
  rewrite for_attempts_skip; [reflexivity|].
  rewrite length_seq. exact Hall.
Qed.

Lemma retryable_failures_exhaust_the_attempts_witness :
  (forall k, (k < MAX_RETRIES)%nat ->
     retryable_failure
       (always_times_out (backend_calls [] + k)%nat (prompt_of greeting question)) = true)
  /\ exists added,
       generateReply always_times_out greeting question [] = (Normal getFallbackMessage, [] ++ added)
       /\ added = [ call_event (prompt_of greeting question); Sleep 1000;
                    call_event (prompt_of greeting question); Sleep 2000;
                    call_event (prompt_of greeting question) ]
       /\ backend_calls added = MAX_RETRIES
       /\ sleeps added = List.map backoff_delay (seq 0 (MAX_RETRIES - 1)).
Proof.
  assert (H : forall k, (k < MAX_RETRIES)%nat ->
     retryable_failure
       (always_times_out (backend_calls [] + k)%nat (prompt_of greeting question)) = true)
    by (intros k _; reflexivity).
  split; [exact H|].
  exact (retryable_failures_exhaust_the_attempts always_times_out greeting question [] H).
Defined.

(** C3. If the first attempt fails with an error the [catch] clause
    classifies as not retryable (its message contains [API_KEY], [401],
    [403], [400] or [invalid]: the signatures of authentication,
    authorisation and validation failures), [generateReply] makes that one
    backend call, no other call and no sleep, and returns the fallback
    message. *)
Theorem non_retryable_first_failure_gives_up
    (backend : nat -> jsstring -> attempt_outcome)
    (history : list Turn) (userMessage : jsstring) (w : trace) :
  non_retryable_failure
    (backend (backend_calls w) (prompt_of history userMessage)) = true ->
  generateReply backend history userMessage w
  = (Normal getFallbackMessage, w ++ [call_event (prompt_of history userMessage)]).
Proof.
  intros Hn. unfold generateReply.
  change (seq 0 MAX_RETRIES) with (O :: seq 1 (MAX_RETRIES - 1)).
  rewrite for_attempts_cons, (attempt_non_retryable _ _ _ O w Hn). reflexivity.
Qed.

Lemma non_retryable_first_failure_gives_up_witness :
  non_retryable_failure
    (rejects_credential (backend_calls []) (prompt_of greeting question)) = true
  /\ generateReply rejects_credential greeting question []
     = (Normal getFallbackMessage, [] ++ [call_event (prompt_of greeting question)]).
Proof.
  assert (H : non_retryable_failure
    (rejects_credential (backend_calls []) (prompt_of greeting question)) = true)
    by reflexivity.
  split; [exact H|].
  exact (non_retryable_first_failure_gives_up rejects_credential greeting question [] H).
Defined.

(** C4 fails on the code.  Which failures are retried is decided by the
    text of the error message, not by what went wrong.  A rate-limit
    failure whose message happens to contain [400] is given up on at the
    first attempt, although two attempts remain: one backend call, no
    sleep, the fallback message. *)
Theorem rate_limit_naming_400_is_not_retried :
  rate_limited (backend_calls []) (prompt_of greeting question)
  = Fails TransientBackend (ErrorInstance rate_limit_message)
  /\ authentication_or_validation TransientBackend = false
  /\ (0 < MAX_RETRIES - 1)%nat
  /\ generateReply rate_limited greeting question []
     = (Normal getFallbackMessage, [call_event (prompt_of greeting question)])
  /\ ~ (exists reply rest,
          generateReply rate_limited greeting question []
          = (reply, [call_event (prompt_of greeting question); Sleep (backoff_delay 0);
                     call_event (prompt_of greeting question)] ++ rest)).
Proof.
  assert (Hrun : generateReply rate_limited greeting question []
                 = (Normal getFallbackMessage, [call_event (prompt_of greeting question)])).
  { vm_compute. reflexivity. }
  split; [reflexivity|]. split; [reflexivity|]. split; [unfold MAX_RETRIES; lia|].
  split; [exact Hrun|].
  intros [reply [rest H]]. rewrite Hrun in H. discriminate H.
Qed.

(** What the [catch] clause does retry: a timeout, a value that is not
    an [Error] and can be converted to a string, and an [Error] whose
    message holds none of the five signatures.  When such a failure
    happens on attempt [k] and attempts remain, [generateReply] sleeps
    [RETRY_DELAY_MS * 2^k] and calls the backend again. *)
Lemma unmatched_failure_is_retried
    (backend : nat -> jsstring -> attempt_outcome)
    (history : list Turn) (userMessage : jsstring) (w : trace) (k : nat) :
  (S k < MAX_RETRIES)%nat ->
  (forall j, (j < k)%nat ->
     retryable_failure
       (backend (backend_calls w + j)%nat (prompt_of history userMessage)) = true) ->
  (backend (backend_calls w + k)%nat (prompt_of history userMessage) = TimerFiresFirst
   \/ (exists c as_string,
         backend (backend_calls w + k)%nat (prompt_of history userMessage)
         = Fails c (NotAnError as_string))
   \/ (exists c message,
         backend (backend_calls w + k)%nat (prompt_of history userMessage)
         = Fails c (ErrorInstance message)
         /\ non_retryable message = false)) ->
  exists reply rest,
    generateReply backend history userMessage w
    = (reply,
       w ++ retry_events (prompt_of history userMessage) (seq 0 k)
         ++ [ call_event (prompt_of history userMessage); Sleep (backoff_delay k);
              call_event (prompt_of history userMessage) ]
         ++ rest).
Proof.
  intros Hk Hbefore Hkth.
  assert (Hr : retryable_failure
                 (backend (backend_calls w + k)%nat (prompt_of history userMessage)) = true).
  { unfold retryable_failure.
    destruct Hkth as [-> | [[c [as_string ->]] | [c [message [-> Hm]]]]];
      cbn [thrown_by errorMessage_of conversion_throws negb andb].
    - reflexivity.
    - reflexivity.
    - rewrite Hm. reflexivity. }
  rewrite (generateReply_after_retries backend history userMessage (S k) w).
  - destruct (for_attempts_extends backend history userMessage
                (seq (S k) (MAX_RETRIES - S k))
                (w ++ retry_events (prompt_of history userMessage) (seq 0 (S k))))
      as [added [Hadd Hcall]].
    destruct Hcall as [rest ->].
    { destruct (MAX_RETRIES - S k)%nat eqn:E; [lia | discriminate]. }
    exists (fst (for_attempts backend history userMessage
                   (seq (S k) (MAX_RETRIES - S k))
                   (w ++ retry_events (prompt_of history userMessage) (seq 0 (S k))))), rest.
    rewrite (surjective_pairing (for_attempts _ _ _ _ _)), Hadd.
    rewrite retry_events_snoc by lia. cbn [fst]. f_equal.
    rewrite <- !app_assoc. reflexivity.
  - lia.
  - intros j Hj. destruct (Nat.eq_dec j k) as [->|Hne]; [exact Hr | apply Hbefore; lia].
Qed.

(** C5. If an attempt is reached (every attempt before it failed and was
    retried) and the backend answers it with a text that is empty or made
    of white space only, [generateReply] returns the fallback message
    from that attempt: its backend call is the last event, no call and no
    sleep follow. *)
Theorem blank_response_returns_fallback_at_once
    (backend : nat -> jsstring -> attempt_outcome)
    (history : list Turn) (userMessage : jsstring) (w : trace)
    (k : nat) (t : jsstring) :
  (k < MAX_RETRIES)%nat ->
  (forall j, (j < k)%nat ->
     retryable_failure
       (backend (backend_calls w + j)%nat (prompt_of history userMessage)) = true) ->
  backend (backend_calls w + k)%nat (prompt_of history userMessage) = Responds t ->
  forallb is_whitespace t = true ->
  generateReply backend history userMessage w
  = (Normal getFallbackMessage,
     w ++ retry_events (prompt_of history userMessage) (seq 0 k)
       ++ [call_event (prompt_of history userMessage)]).
Proof.
  intros Hk Hbefore Hresp Hws.
  rewrite (generateReply_after_retries backend history userMessage k w) by (lia || assumption).
  destruct (MAX_RETRIES - k)%nat as [|m] eqn:E; [lia|]. cbn [seq].
  rewrite for_attempts_cons.
  rewrite (attempt_responds backend history userMessage k _ t).
  - apply is_blank_iff in Hws. rewrite Hws, <- app_assoc. reflexivity.
  - rewrite backend_calls_app, backend_calls_retry_events, length_seq. exact Hresp.
Qed.

Lemma blank_response_returns_fallback_at_once_witness :
  (1 < MAX_RETRIES)%nat
  /\ (forall j, (j < 1)%nat ->
        retryable_failure
          (blank_on_second (backend_calls [] + j)%nat (prompt_of greeting question)) = true)
  /\ blank_on_second (backend_calls [] + 1)%nat (prompt_of greeting question)
     = Responds (lit "   ")
  /\ forallb is_whitespace (lit "   ") = true
  /\ generateReply blank_on_second greeting question []
     = (Normal getFallbackMessage,
        [] ++ retry_events (prompt_of greeting question) (seq 0 1)
           ++ [call_event (prompt_of greeting question)]).
Proof.
  assert (H1 : (1 < MAX_RETRIES)%nat) by (unfold MAX_RETRIES; lia).
  assert (H2 : forall j, (j < 1)%nat ->
        retryable_failure
          (blank_on_second (backend_calls [] + j)%nat (prompt_of greeting question)) = true).
  { intros j Hj. assert (j = O) as -> by lia. reflexivity. }
  assert (H3 : blank_on_second (backend_calls [] + 1)%nat (prompt_of greeting question)
               = Responds (lit "   ")) by reflexivity.
  assert (H4 : forallb is_whitespace (lit "   ") = true) by reflexivity.
  split; [exact H1|]. split; [exact H2|]. split; [exact H3|]. split; [exact H4|].
  exact (blank_response_returns_fallback_at_once blank_on_second greeting question [] 1
           (lit "   ") H1 H2 H3 H4).
Defined.

(** C6. If the backend answers the first attempt with a text [X] that
    holds a code unit other than white space, [X] is some white space, a
    core that neither starts nor ends with white space, and some white
    space again, and [generateReply] returns the first 2000 code units
    of the core: the white space around it is removed, then the cap is
    applied.  It makes that one backend call and does not sleep. *)
Theorem first_attempt_success_is_trimmed_and_capped
    (backend : nat -> jsstring -> attempt_outcome)
    (history : list Turn) (userMessage : jsstring) (w : trace) (X : jsstring) :
  backend (backend_calls w) (prompt_of history userMessage) = Responds X ->
  Exists (fun c => ~ In c white_space) X ->
  exists lead a rest trail,
    X = lead ++ (a :: rest) ++ trail
    /\ Forall (fun c => In c white_space) lead
    /\ Forall (fun c => In c white_space) trail
    /\ ~ In a white_space
    /\ ~ In (last (a :: rest) a) white_space
    /\ generateReply backend history userMessage w
       = (Normal (firstn 2000 (a :: rest)),
          w ++ [call_event (prompt_of history userMessage)]).
Proof.
  intros Hresp Hex.
  destruct (trim_decompose X Hex)
    as [lead [a [rest [trail [HX [Hlead [Htrail [Ha [Hlast Htrim]]]]]]]]].
  exists lead, a, rest, trail.
  split; [exact HX|]. split; [exact Hlead|]. split; [exact Htrail|].
  split; [exact Ha|]. split; [exact Hlast|].
  unfold generateReply.
  change (seq 0 MAX_RETRIES) with (O :: seq 1 (MAX_RETRIES - 1)).
  rewrite for_attempts_cons, (attempt_responds _ _ _ O w X Hresp).
  assert (Hne : is_blank X = false).
  { apply not_blank_iff. rewrite Htrim. discriminate. }
  rewrite Hne, Htrim. rewrite slice_prefix by lia. reflexivity.
Qed.

Lemma first_attempt_success_is_trimmed_and_capped_witness :
  answers_at_once (backend_calls []) (prompt_of greeting question)
  = Responds (LF ++ lit " 30-day returns. " ++ LF)
  /\ Exists (fun c => ~ In c white_space) (LF ++ lit " 30-day returns. " ++ LF)
  /\ exists lead a rest trail,
       LF ++ lit " 30-day returns. " ++ LF = lead ++ (a :: rest) ++ trail
       /\ Forall (fun c => In c white_space) lead
       /\ Forall (fun c => In c white_space) trail
       /\ ~ In a white_space
       /\ ~ In (last (a :: rest) a) white_space
       /\ generateReply answers_at_once greeting question []
          = (Normal (firstn 2000 (a :: rest)),
             [] ++ [call_event (prompt_of greeting question)]).
Proof.
  assert (H1 : answers_at_once (backend_calls []) (prompt_of greeting question)
               = Responds (LF ++ lit " 30-day returns. " ++ LF)) by reflexivity.
  assert (H2 : Exists (fun c => ~ In c white_space) (LF ++ lit " 30-day returns. " ++ LF)).
  { apply Exists_cons_tl, Exists_cons_tl, Exists_cons_hd.
    intros H. cbn in H. repeat (destruct H as [H|H]; [discriminate H|]). exact H. }
  split; [exact H1|]. split; [exact H2|].
  exact (first_attempt_success_is_trimmed_and_capped answers_at_once greeting question []
           (LF ++ lit " 30-day returns. " ++ LF) H1 H2).
Defined.

(** C7. The prompt holds the serialized history without its oldest code
    units beyond the last 16000: when the estimate [length / 4] exceeds
    [MAX_INPUT_TOKENS] = 4000, that is when the serialized history is
    longer than 16000 code units, exactly its last 16000 are kept; when it
    has at most 16000, all of it is kept unchanged.  In either case the
    whole user message stands verbatim in the prompt, and that prompt is
    what the backend is called on. *)
Theorem prompt_keeps_recent_history_and_whole_message
    (backend : nat -> jsstring -> attempt_outcome)
    (history : list Turn) (userMessage : jsstring) (w : trace) :
  exists dropped kept,
    formatHistory history = dropped ++ kept
    /\ length kept = Z.min (length (formatHistory history)) (MAX_INPUT_TOKENS * 4)
    /\ ((inject_Z MAX_INPUT_TOKENS < estimatedTokens (formatHistory history))%Q
        <-> 16000 < length (formatHistory history))
    /\ (16000 < length (formatHistory history) -> length kept = 16000)
    /\ (length (formatHistory history) <= 16000 -> kept = formatHistory history)
    /\ prompt_of history userMessage
       = SYSTEM_PROMPT ++ HISTORY_HEADER ++ kept
         ++ USER_CUE ++ userMessage ++ ASSISTANT_CUE
    /\ includes (prompt_of history userMessage) userMessage = true
    /\ exists rest,
         snd (generateReply backend history userMessage w)
         = w ++ call_event (prompt_of history userMessage) :: rest.
Proof.
  set (s := formatHistory history).
  set (n := Z.to_nat (length s - 16000)).
  assert (Hkept : truncateHistory s = skipn n s) by apply truncateHistory_skipn.
  assert (Hlen : length (skipn n s) = Z.min (length s) 16000).
  { unfold length, n. rewrite length_skipn. unfold length. lia. }
  exists (firstn n s), (skipn n s).
  split; [symmetry; apply firstn_skipn|].
  split; [exact Hlen|].
  split; [apply over_budget_iff|].
  split; [intros Hover; rewrite Hlen; lia|].
  split; [intros Hunder; unfold n; replace (Z.to_nat (length s - 16000)) with O by lia;
          reflexivity|].
  assert (Hprompt : prompt_of history userMessage
                    = SYSTEM_PROMPT ++ HISTORY_HEADER ++ skipn n s
                      ++ USER_CUE ++ userMessage ++ ASSISTANT_CUE).
  { unfold prompt_of, build_prompt. fold s. rewrite Hkept. reflexivity. }
  split; [exact Hprompt|].
  split.
  - rewrite Hprompt.
    rewrite (app_assoc SYSTEM_PROMPT), (app_assoc (SYSTEM_PROMPT ++ HISTORY_HEADER)),
      (app_assoc ((SYSTEM_PROMPT ++ HISTORY_HEADER) ++ skipn n s)).
    apply includes_app.
  - destruct (for_attempts_extends backend history userMessage (seq 0 MAX_RETRIES) w)
      as [added [Hadd Hcall]].
    destruct Hcall as [rest ->]; [discriminate|].
    exists rest. exact Hadd.
Qed.

(** C8. Every turn is serialized as its role label, a colon and a space,
    and its text; sender [user] gets the label [User], sender [ai] the
    label [Assistant]; the serialized turns are joined by a newline in the
    order of the history, oldest first.  The prompt is the system
    instruction block, the history block, the new user message and the
    assistant cue, in this order, and it is what the backend is called
    on. *)
Theorem history_lines_and_prompt_order
    (backend : nat -> jsstring -> attempt_outcome)
    (history : list Turn) (userMessage : jsstring) (w : trace) :
  formatHistory history = newline_separated (List.map format_turn history)
  /\ (forall turn, sender turn = lit "user" ->
                   format_turn turn = lit "User: " ++ text turn)
  /\ (forall turn, sender turn = lit "ai" ->
                   format_turn turn = lit "Assistant: " ++ text turn)
  /\ prompt_of history userMessage
     = SYSTEM_PROMPT
       ++ (HISTORY_HEADER ++ truncateHistory (formatHistory history))
       ++ (USER_CUE ++ userMessage)
       ++ ASSISTANT_CUE
  /\ exists rest,
       snd (generateReply backend history userMessage w)
       = w ++ call_event (prompt_of history userMessage) :: rest.
Proof.
  split; [apply formatHistory_newline_separated|].
  split.
  { intros [sndr txt] Hs. cbn [sender] in Hs. subst sndr.
    unfold format_turn, role_of. cbn [sender text].
    destruct (list_eq_dec N.eq_dec (lit "user") (lit "user")) as [_|Hne];
      [reflexivity | congruence]. }
  split.
  { intros [sndr txt] Hs. cbn [sender] in Hs. subst sndr.
    unfold format_turn, role_of. cbn [sender text].
    destruct (list_eq_dec N.eq_dec (lit "ai") (lit "user")) as [Heq|_];
      [discriminate Heq | reflexivity]. }
  split.
  { unfold prompt_of, build_prompt. rewrite <- !app_assoc. reflexivity. }
  destruct (for_attempts_extends backend history userMessage (seq 0 MAX_RETRIES) w)
    as [added [Hadd Hcall]].
  destruct Hcall as [rest ->]; [discriminate|].
  exists rest. exact Hadd.
Qed.

(** C9. The reply is a function of the history, the user message and
    the outcomes of the attempts: two calls of [generateReply] with the
    same history and message, whose attempts meet the same outcomes one by
    one (as they do against a backend that is a function of the prompt
    alone), end the same way and go through the same calls and sleeps;
    where the [catch] clause does not throw, they end with the same
    returned reply. *)
Theorem same_outcomes_give_the_same_reply
    (backend1 backend2 : nat -> jsstring -> attempt_outcome)
    (history : list Turn) (userMessage : jsstring) (w1 w2 : trace) :
  (forall k, (k < MAX_RETRIES)%nat ->
     backend1 (backend_calls w1 + k)%nat (prompt_of history userMessage)
     = backend2 (backend_calls w2 + k)%nat (prompt_of history userMessage)) ->
  exists reply added,
    generateReply backend1 history userMessage w1 = (reply, w1 ++ added)
    /\ generateReply backend2 history userMessage w2 = (reply, w2 ++ added)
    /\ ((forall k, (k < MAX_RETRIES)%nat ->
           catch_throws
             (backend1 (backend_calls w1 + k)%nat (prompt_of history userMessage))
           = false) ->
        exists text, reply = Normal text).
Proof.
  intros Hagree.
  destruct (for_attempts_agree backend1 backend2 history userMessage
              (seq 0 MAX_RETRIES) w1 w2) as [reply [added [H1 H2]]].
  { rewrite length_seq. exact Hagree. }
  exists reply, added. unfold generateReply.
  split; [exact H1|]. split; [exact H2|].
  intros Hsafe.
  destruct (for_attempts_returns backend1 history userMessage (seq 0 MAX_RETRIES) w1)
    as [text [w' [Hrun _]]].
  { rewrite length_seq. exact Hsafe. }
  rewrite H1 in Hrun. injection Hrun as -> _.
  exists text. reflexivity.
Qed.

(** Calling twice in a row against a backend that looks at the prompt
    only. *)
Lemma same_outcomes_give_the_same_reply_witness :
  (forall k, (k < MAX_RETRIES)%nat ->
     echo_length (backend_calls [] + k)%nat (prompt_of two_turns question)
     = echo_length
         (backend_calls (snd (generateReply echo_length two_turns question [])) + k)%nat
         (prompt_of two_turns question))
  /\ exists reply added,
       generateReply echo_length two_turns question [] = (reply, [] ++ added)
       /\ generateReply echo_length two_turns question
            (snd (generateReply echo_length two_turns question []))
          = (reply, snd (generateReply echo_length two_turns question []) ++ added)
       /\ ((forall k, (k < MAX_RETRIES)%nat ->
              catch_throws
                (echo_length (backend_calls [] + k)%nat (prompt_of two_turns question))
              = false) ->
           exists text, reply = Normal text).
Proof.
  assert (H : forall k, (k < MAX_RETRIES)%nat ->
     echo_length (backend_calls [] + k)%nat (prompt_of two_turns question)
     = echo_length
         (backend_calls (snd (generateReply echo_length two_turns question [])) + k)%nat
         (prompt_of two_turns question))
    by (intros k _; reflexivity).
  split; [exact H|].
  exact (same_outcomes_give_the_same_reply echo_length echo_length two_turns question
           [] (snd (generateReply echo_length two_turns question [])) H).
Defined.



End ReplySpec.

(* ================================================================== *)
(** ** More about the retry loop and the prompt *)
(* ================================================================== *)

Module ReplyMoreFacts.
Import Gemini JsFacts GeminiFacts PromptFacts.

Lemma retry_events_counts (p : jsstring) (k a : nat) :
  (a + k <= MAX_RETRIES - 1)%nat ->
  sleeps (retry_events p (seq a k)) = List.map backoff_delay (seq a k).
Proof.
  revert a. induction k as [|k IH]; intros a Hk; [reflexivity|].
  cbn [seq List.map]. unfold retry_events in *. cbn [flat_map].
  rewrite sleeps_app, IH by lia.
  unfold failed_attempt_events.
  destruct (Nat.ltb_spec a (MAX_RETRIES - 1)) as [_|Hge]; [reflexivity | lia].
Qed.

Section Shape.

Variable backend : nat -> jsstring -> attempt_outcome.
Variable history : list Turn.
Variable userMessage : jsstring.

Local Abbreviation p := (prompt_of history userMessage).

(** Whatever happens, what the loop adds is some retried attempts and one
    last call. *)
Lemma for_attempts_shape (n a : nat) (w : trace) :
  (a + S n = MAX_RETRIES)%nat ->
  exists k, (k <= n)%nat
    /\ snd (for_attempts backend history userMessage (seq a (S n)) w)
       = w ++ retry_events p (seq a k) ++ [call_event p].
Proof.
  revert a w. induction n as [|n IH]; intros a w Ha; cbn [seq];
    rewrite for_attempts_cons;
    destruct (outcome_cases (backend (backend_calls w) p)) as [[t Ht]|[Hn|[Hr|Hc]]].
  - rewrite (attempt_responds _ _ _ a w t Ht). exists O. split; [lia | reflexivity].
  - rewrite (attempt_non_retryable _ _ _ a w Hn). exists O. split; [lia | reflexivity].
  - rewrite (attempt_retryable _ _ _ a w Hr). exists O. split; [lia|].
    unfold failed_attempt_events.
    destruct (Nat.ltb_spec a (MAX_RETRIES - 1)) as [Hlt|_]; [lia | reflexivity].
  - destruct (attempt_catch_throws _ _ _ a w Hc) as [thrown [_ Hbody]]. rewrite Hbody.
    exists O. split; [lia | reflexivity].
  - rewrite (attempt_responds _ _ _ a w t Ht). exists O. split; [lia | reflexivity].
  - rewrite (attempt_non_retryable _ _ _ a w Hn). exists O. split; [lia | reflexivity].
  - rewrite (attempt_retryable _ _ _ a w Hr).
    destruct (IH (S a) (w ++ failed_attempt_events p a)) as [k [Hk Hrun]]; [lia|].
    exists (S k). split; [lia|].
    cbn [seq] in Hrun. rewrite Hrun. cbn [seq]. unfold retry_events. cbn [flat_map].
    rewrite <- !app_assoc. reflexivity.
  - destruct (attempt_catch_throws _ _ _ a w Hc) as [thrown [_ Hbody]]. rewrite Hbody.
    exists O. split; [lia | reflexivity].
Qed.

End Shape.

Lemma newline_separated_cons2 (x y : jsstring) (l : list jsstring) :
  newline_separated (x :: y :: l) = x ++ LF ++ newline_separated (y :: l).
Proof. reflexivity. Qed.

Lemma newline_separated_app (l1 l2 : list jsstring) :
  l1 <> [] -> l2 <> [] ->
  newline_separated (l1 ++ l2) = newline_separated l1 ++ LF ++ newline_separated l2.
Proof.
  intros H1 H2. induction l1 as [|x l1 IH]; [congruence|].
  destruct l1 as [|y l1].
  - destruct l2 as [|z l2]; [congruence | reflexivity].
  - cbn [app] in *. rewrite !newline_separated_cons2, IH by discriminate.
    rewrite <- !app_assoc. reflexivity.
Qed.

Lemma newline_separated_merge (before : list jsstring) (x y : jsstring)
    (after : list jsstring) :
  newline_separated (before ++ (x ++ LF ++ y) :: after)
  = newline_separated (before ++ x :: y :: after).
Proof.
  induction before as [|b before IH]; cbn [app].
  - rewrite newline_separated_cons2. destruct after as [|z after].
    + reflexivity.
    + rewrite !newline_separated_cons2, <- !app_assoc. reflexivity.
  - destruct before as [|b' before]; cbn [app] in *.
    + change (b ++ LF ++ newline_separated ((x ++ LF ++ y) :: after)
              = b ++ LF ++ newline_separated (x :: y :: after)).
      rewrite IH. reflexivity.
    + change (b ++ LF ++ newline_separated (b' :: before ++ (x ++ LF ++ y) :: after)
              = b ++ LF ++ newline_separated (b' :: before ++ x :: y :: after)).
      rewrite IH. reflexivity.
Qed.

End ReplyMoreFacts.

Module ReplyMore.
Import Gemini JsFacts GeminiFacts PromptFacts ReplyMoreFacts Scenarios MoreScenarios.

(** X1. An answer on any attempt, not only the first: when the attempts
    before attempt [k] failed and were retried and attempt [k] is answered
    with a text [X] that holds a code unit other than white space, [X] is
    some white space, a core that neither starts nor ends with white
    space, and some white space again, and the reply is the first 2000
    code units of the core, after [k] sleeps and [k + 1] calls. *)
Theorem success_on_a_later_attempt
    (backend : nat -> jsstring -> attempt_outcome)
    (history : list Turn) (userMessage : jsstring) (w : trace)
    (k : nat) (X : jsstring) :
  (k < MAX_RETRIES)%nat ->
  (forall j, (j < k)%nat ->
     retryable_failure
       (backend (backend_calls w + j)%nat (prompt_of history userMessage)) = true) ->
  backend (backend_calls w + k)%nat (prompt_of history userMessage) = Responds X ->
  Exists (fun c => ~ In c white_space) X ->
  exists lead a rest trail,
    X = lead ++ (a :: rest) ++ trail
    /\ Forall (fun c => In c white_space) lead
    /\ Forall (fun c => In c white_space) trail
    /\ ~ In a white_space
    /\ ~ In (last (a :: rest) a) white_space
    /\ generateReply backend history userMessage w
       = (Normal (firstn 2000 (a :: rest)),
          w ++ retry_events (prompt_of history userMessage) (seq 0 k)
            ++ [call_event (prompt_of history userMessage)])
    /\ sleeps (retry_events (prompt_of history userMessage) (seq 0 k))
       = List.map backoff_delay (seq 0 k).
Proof.
  intros Hk Hbefore Hresp Hex.
  destruct (trim_decompose X Hex)
    as [lead [a [rest [trail [HX [Hlead [Htrail [Ha [Hlast Htrim]]]]]]]]].
  exists lead, a, rest, trail.
  split; [exact HX|]. split; [exact Hlead|]. split; [exact Htrail|].
  split; [exact Ha|]. split; [exact Hlast|].
  split.
  - rewrite (generateReply_after_retries backend history userMessage k w)
      by (lia || assumption).
    destruct (MAX_RETRIES - k)%nat as [|m] eqn:E; [lia|]. cbn [seq].
    rewrite for_attempts_cons.
    rewrite (attempt_responds backend history userMessage k _ X).
    + assert (Hne : is_blank X = false).
      { apply not_blank_iff. rewrite Htrim. discriminate. }
      rewrite Hne, Htrim, <- app_assoc.
      rewrite slice_prefix by lia. reflexivity.
    + rewrite backend_calls_app, backend_calls_retry_events, length_seq. exact Hresp.
  - apply retry_events_counts. lia.
Qed.

Lemma success_on_a_later_attempt_witness :
  (1 < MAX_RETRIES)%nat
  /\ (forall j, (j < 1)%nat ->
        retryable_failure
          (padded_on_second (backend_calls [] + j)%nat (prompt_of greeting question)) = true)
  /\ padded_on_second (backend_calls [] + 1)%nat (prompt_of greeting question)
     = Responds (lit "  Shipped in 5-7 days." ++ LF)
  /\ Exists (fun c => ~ In c white_space) (lit "  Shipped in 5-7 days." ++ LF)
  /\ exists lead a rest trail,
       lit "  Shipped in 5-7 days." ++ LF = lead ++ (a :: rest) ++ trail
       /\ Forall (fun c => In c white_space) lead
       /\ Forall (fun c => In c white_space) trail
       /\ ~ In a white_space
       /\ ~ In (last (a :: rest) a) white_space
       /\ generateReply padded_on_second greeting question []
          = (Normal (firstn 2000 (a :: rest)),
             [] ++ retry_events (prompt_of greeting question) (seq 0 1)
                ++ [call_event (prompt_of greeting question)])
       /\ sleeps (retry_events (prompt_of greeting question) (seq 0 1))
          = List.map backoff_delay (seq 0 1).
Proof.
  assert (H1 : (1 < MAX_RETRIES)%nat) by (unfold MAX_RETRIES; lia).
  assert (H2 : forall j, (j < 1)%nat ->
        retryable_failure
          (padded_on_second (backend_calls [] + j)%nat (prompt_of greeting question)) = true).
  { intros j Hj. assert (j = O) as -> by lia. reflexivity. }
  assert (H3 : padded_on_second (backend_calls [] + 1)%nat (prompt_of greeting question)
               = Responds (lit "  Shipped in 5-7 days." ++ LF)) by reflexivity.
  assert (H4 : Exists (fun c => ~ In c white_space) (lit "  Shipped in 5-7 days." ++ LF)).
  { apply Exists_cons_tl, Exists_cons_tl, Exists_cons_hd.
    intros H. cbn in H. repeat (destruct H as [H|H]; [discriminate H|]). exact H. }
  split; [exact H1|]. split; [exact H2|]. split; [exact H3|]. split; [exact H4|].
  exact (success_on_a_later_attempt padded_on_second greeting question [] 1
           (lit "  Shipped in 5-7 days." ++ LF) H1 H2 H3 H4).
Defined.

(** X2. Giving up on any attempt, not only the first: when the attempts
    before attempt [k] failed and were retried and attempt [k] fails with
    a message holding one of the five signatures, the reply is the
    fallback message and that attempt's call is the last event: the
    attempts that were left are not made. *)
Theorem non_retryable_failure_on_a_later_attempt
    (backend : nat -> jsstring -> attempt_outcome)
    (history : list Turn) (userMessage : jsstring) (w : trace) (k : nat) :
  (k < MAX_RETRIES)%nat ->
  (forall j, (j < k)%nat ->
     retryable_failure
       (backend (backend_calls w + j)%nat (prompt_of history userMessage)) = true) ->
  non_retryable_failure
    (backend (backend_calls w + k)%nat (prompt_of history userMessage)) = true ->
  generateReply backend history userMessage w
  = (Normal getFallbackMessage,
     w ++ retry_events (prompt_of history userMessage) (seq 0 k)
       ++ [call_event (prompt_of history userMessage)]).
Proof.
  intros Hk Hbefore Hn.
  rewrite (generateReply_after_retries backend history userMessage k w)
    by (lia || assumption).
  destruct (MAX_RETRIES - k)%nat as [|m] eqn:E; [lia|]. cbn [seq].
  rewrite for_attempts_cons.
  rewrite (attempt_non_retryable backend history userMessage k _).
  - rewrite <- app_assoc. reflexivity.
  - rewrite backend_calls_app, backend_calls_retry_events, length_seq. exact Hn.
Qed.

Lemma non_retryable_failure_on_a_later_attempt_witness :
  (1 < MAX_RETRIES)%nat
  /\ (forall j, (j < 1)%nat ->
        retryable_failure
          (rejects_on_second (backend_calls [] + j)%nat (prompt_of greeting question)) = true)
  /\ non_retryable_failure
       (rejects_on_second (backend_calls [] + 1)%nat (prompt_of greeting question)) = true
  /\ generateReply rejects_on_second greeting question []
     = (Normal getFallbackMessage,
        [] ++ retry_events (prompt_of greeting question) (seq 0 1)
           ++ [call_event (prompt_of greeting question)]).
Proof.
  assert (H1 : (1 < MAX_RETRIES)%nat) by (unfold MAX_RETRIES; lia).
  assert (H2 : forall j, (j < 1)%nat ->
        retryable_failure
          (rejects_on_second (backend_calls [] + j)%nat (prompt_of greeting question)) = true).
  { intros j Hj. assert (j = O) as -> by lia. reflexivity. }
  assert (H3 : non_retryable_failure
       (rejects_on_second (backend_calls [] + 1)%nat (prompt_of greeting question)) = true)
    by reflexivity.
  split; [exact H1|]. split; [exact H2|]. split; [exact H3|].
  exact (non_retryable_failure_on_a_later_attempt rejects_on_second greeting question [] 1
           H1 H2 H3).
Defined.

(** X3. The shape of every call, whatever the backend does: the events
    added are [k] retried attempts, each a backend call followed by its
    backoff sleep, and then one last backend call, for some
    [k < MAX_RETRIES].  So there is at least one backend call and at most
    three, one sleep fewer than calls, the sleeps are 1000 ms and then
    2000 ms, at most 3000 ms in all, and the last event is never a
    sleep. *)
Theorem every_call_is_retries_then_one_last_call
    (backend : nat -> jsstring -> attempt_outcome)
    (history : list Turn) (userMessage : jsstring) (w : trace) :
  exists k added,
    (k < MAX_RETRIES)%nat
    /\ snd (generateReply backend history userMessage w) = w ++ added
    /\ added = retry_events (prompt_of history userMessage) (seq 0 k)
               ++ [call_event (prompt_of history userMessage)]
    /\ backend_calls added = S k
    /\ sleeps added = List.map backoff_delay (seq 0 k)
    /\ sleeps added = firstn k [1000; 2000]
    /\ fold_right Z.add 0 (sleeps added) <= 3000.
Proof.
  destruct (for_attempts_shape backend history userMessage (MAX_RETRIES - 1) O w)
    as [k [Hk Hrun]]; [reflexivity|].
  change (seq 0 (S (MAX_RETRIES - 1))) with (seq 0 MAX_RETRIES) in Hrun.
  exists k, (retry_events (prompt_of history userMessage) (seq 0 k)
             ++ [call_event (prompt_of history userMessage)]).
  assert (Hs : sleeps (retry_events (prompt_of history userMessage) (seq 0 k)
                       ++ [call_event (prompt_of history userMessage)])
               = List.map backoff_delay (seq 0 k)).
  { rewrite sleeps_app, retry_events_counts by (cbn [Nat.add]; exact Hk).
    apply app_nil_r. }
  split; [unfold MAX_RETRIES in *; lia|].
  split; [exact Hrun|]. split; [reflexivity|].
  split.
  { rewrite backend_calls_app, backend_calls_retry_events, length_seq.
    cbn. lia. }
  split; [exact Hs|].
  rewrite Hs.
  assert (Hcases : k = 0%nat \/ k = 1%nat \/ k = 2%nat) by (unfold MAX_RETRIES in Hk; lia).
  destruct Hcases as [-> | [-> | ->]]; split; [reflexivity | cbn; lia | reflexivity
    | cbn; lia | reflexivity | cbn; lia].
Qed.

(** X4. The size of the prompt: 419 code units of fixed text, the history
    block of at most 16000, and the user message, which is never cut.
    However long the history, the prompt is no longer than
    [16419 + userMessage.length]. *)
Theorem prompt_length_is_bounded (history : list Turn) (userMessage : jsstring) :
  length (prompt_of history userMessage)
  = 419 + Z.min (length (formatHistory history)) 16000 + length userMessage
  /\ length (prompt_of history userMessage) <= 16419 + length userMessage.
Proof.
  assert (H : length (prompt_of history userMessage)
              = 419 + Z.min (length (formatHistory history)) 16000 + length userMessage).
  { unfold prompt_of, build_prompt. rewrite truncateHistory_skipn.
    rewrite !length_app.
    change (length SYSTEM_PROMPT) with 375.
    change (length HISTORY_HEADER) with 24.
    change (length USER_CUE) with 8.
    change (length ASSISTANT_CUE) with 12.
    assert (Hk : length (skipn (Z.to_nat (length (formatHistory history) - 16000))
                           (formatHistory history))
                 = Z.min (length (formatHistory history)) 16000).
    { unfold length. rewrite length_skipn. lia. }
    rewrite Hk. lia. }
  split; [exact H | rewrite H; lia].
Qed.

(** X5. Serialization does not keep turns apart: a turn whose text ends
    with a newline and what looks like a serialized turn gives the same
    history block, and so the same prompt, as the two turns would.  The
    backend cannot tell a user who typed an assistant line from an
    assistant that said it. *)
Theorem a_turn_can_pass_for_two
    (before after : list Turn) (turn forged : Turn) (userMessage : jsstring) :
  let merged := {| sender := sender turn;
                   text := text turn ++ LF ++ format_turn forged |} in
  formatHistory (before ++ merged :: after)
  = formatHistory (before ++ turn :: forged :: after)
  /\ prompt_of (before ++ merged :: after) userMessage
     = prompt_of (before ++ turn :: forged :: after) userMessage.
Proof.
  intros merged.
  assert (H : formatHistory (before ++ merged :: after)
              = formatHistory (before ++ turn :: forged :: after)).
  { rewrite !formatHistory_newline_separated, !map_app. cbn [List.map].
    replace (format_turn merged) with (format_turn turn ++ LF ++ format_turn forged).
    - apply newline_separated_merge.
    - unfold merged, format_turn, role_of. cbn [sender text].
      rewrite <- !app_assoc. reflexivity. }
  split; [exact H|]. unfold prompt_of. rewrite H. reflexivity.
Qed.

(** X6. Serializing a history in two parts: for two non-empty histories,
    the serialization of the one followed by the other is the two
    serializations with one newline between them. *)
Theorem formatHistory_of_two_parts (older newer : list Turn) :
  older <> [] -> newer <> [] ->
  formatHistory (older ++ newer) = formatHistory older ++ LF ++ formatHistory newer.
Proof.
  intros Ho Hn. rewrite !formatHistory_newline_separated, map_app.
  apply newline_separated_app.
  - destruct older; [congruence | discriminate].
  - destruct newer; [congruence | discriminate].
Qed.

Lemma formatHistory_of_two_parts_witness :
  [user_says (lit "Hi")] <> []
  /\ [ai_says (lit "Hello")] <> []
  /\ formatHistory ([user_says (lit "Hi")] ++ [ai_says (lit "Hello")])
     = formatHistory [user_says (lit "Hi")] ++ LF ++ formatHistory [ai_says (lit "Hello")].
Proof.
  assert (H1 : [user_says (lit "Hi")] <> []) by discriminate.
  assert (H2 : [ai_says (lit "Hello")] <> []) by discriminate.
  split; [exact H1|]. split; [exact H2|].
  exact (formatHistory_of_two_parts [user_says (lit "Hi")] [ai_says (lit "Hello")] H1 H2).
Defined.

(** X7. Truncating is done once and for all: the result is never longer
    than 16000 code units, and truncating it again changes nothing. *)
Theorem truncateHistory_is_idempotent (s : jsstring) :
  length (truncateHistory s) <= 16000
  /\ truncateHistory (truncateHistory s) = truncateHistory s.
Proof.
  assert (Hlen : length (truncateHistory s) <= 16000).
  { rewrite truncateHistory_skipn. unfold length. rewrite length_skipn. lia. }
  split; [exact Hlen|].
  rewrite (truncateHistory_skipn (truncateHistory s)).
  replace (Z.to_nat (length (truncateHistory s) - 16000)) with O by lia.
  reflexivity.
Qed.

End ReplyMore.

(* ================================================================== *)
(** ** Facts about sanitizing *)
(* ================================================================== *)

Module SanitizeFacts.
Import Gemini JsFacts PromptFacts Sanitize.

Lemma flat_map_flat_map {A B C : Type} (f : A -> list B) (g : B -> list C) (l : list A) :
  flat_map g (flat_map f l) = flat_map (fun a => flat_map g (f a)) l.
Proof.
  induction l as [|a l IH]; [reflexivity|].
  cbn [flat_map]. rewrite flat_map_app, IH. reflexivity.
Qed.

(** A code unit is one of the six, or none of them. *)
Lemma code_unit_cases (c : code_unit) :
  c = AMPERSAND \/ c = LESS_THAN \/ c = GREATER_THAN
  \/ c = DOUBLE_QUOTE \/ c = SINGLE_QUOTE \/ c = SLASH
  \/ (is_special c = false /\ escape c = [c]
      /\ c <> AMPERSAND /\ c <> LESS_THAN /\ c <> GREATER_THAN
      /\ c <> DOUBLE_QUOTE /\ c <> SINGLE_QUOTE /\ c <> SLASH).
Proof.
  unfold is_special, escape.
  destruct (N.eqb_spec c AMPERSAND); [auto|].
  destruct (N.eqb_spec c LESS_THAN); [auto|].
  destruct (N.eqb_spec c GREATER_THAN); [auto|].
  destruct (N.eqb_spec c DOUBLE_QUOTE); [auto 6|].
  destruct (N.eqb_spec c SINGLE_QUOTE); [auto 7|].
  destruct (N.eqb_spec c SLASH); [auto 8|].
  do 6 right. repeat split; assumption.
Qed.

(** The six replacements one after the other do what one pass over the
    input does: the replacements put in by an earlier step hold none of
    the characters a later step looks for. *)
Lemma sanitizeInput_flat_map (s : jsstring) : sanitizeInput s = flat_map escape s.
Proof.
  unfold sanitizeInput, replace_all. rewrite !flat_map_flat_map.
  apply flat_map_ext. intros c.
  destruct (code_unit_cases c) as [->|[->|[->|[->|[->|[->|H]]]]]];
    try (vm_compute; reflexivity).
  destruct H as [_ [He [H1 [H2 [H3 [H4 [H5 H6]]]]]]]. rewrite He.
  apply N.eqb_neq in H1, H2, H3, H4, H5, H6.
  cbn [flat_map app]. rewrite H1. cbn [flat_map app]. rewrite H2.
  cbn [flat_map app]. rewrite H3. cbn [flat_map app]. rewrite H4.
  cbn [flat_map app]. rewrite H5. cbn [flat_map app]. rewrite H6.
  reflexivity.
Qed.

Lemma escape_no_markup (c : code_unit) : forallb (fun u => negb (is_markup u)) (escape c) = true.
Proof.
  destruct (code_unit_cases c) as [->|[->|[->|[->|[->|[->|H]]]]]];
    try (vm_compute; reflexivity).
  destruct H as [_ [He [_ [H2 [H3 [H4 [H5 H6]]]]]]]. rewrite He.
  apply N.eqb_neq in H2, H3, H4, H5, H6.
  cbn [forallb]. unfold is_markup. rewrite H2, H3, H4, H5, H6. reflexivity.
Qed.

Lemma forallb_flat_map {A B : Type} (f : A -> list B) (q : B -> bool) (l : list A) :
  (forall a, forallb q (f a) = true) -> forallb q (flat_map f l) = true.
Proof.
  intros H. induction l as [|a l IH]; [reflexivity|].
  cbn [flat_map]. rewrite forallb_app, H, IH. reflexivity.
Qed.

(** The replacements form a prefix code: what follows tells which code
    unit was escaped. *)
Lemma escape_app_inj (c1 c2 : code_unit) (r1 r2 : jsstring) :
  escape c1 ++ r1 = escape c2 ++ r2 -> c1 = c2 /\ r1 = r2.
Proof.
  intros H.
  destruct (code_unit_cases c1) as [->|[->|[->|[->|[->|[->|H1]]]]]];
    destruct (code_unit_cases c2) as [->|[->|[->|[->|[->|[->|H2]]]]]];
    try (destruct H1 as [_ [He1 [? [? [? [? [? ?]]]]]]]; rewrite He1 in H);
    try (destruct H2 as [_ [He2 [? [? [? [? [? ?]]]]]]]; rewrite He2 in H);
    vm_compute in H; try discriminate H;
    unfold AMPERSAND, LESS_THAN, GREATER_THAN, DOUBLE_QUOTE, SINGLE_QUOTE, SLASH in *;
    injection H; intros; subst; try congruence; split; congruence.
Qed.

Lemma flat_map_escape_inj (s1 s2 : jsstring) :
  flat_map escape s1 = flat_map escape s2 -> s1 = s2.
Proof.
  revert s2. induction s1 as [|c1 s1 IH]; intros [|c2 s2] H.
  - reflexivity.
  - cbn [flat_map] in H. exfalso.
    destruct (code_unit_cases c2) as [->|[->|[->|[->|[->|[->|H2]]]]]];
      try (vm_compute in H; discriminate H).
    destruct H2 as [_ [He _]]. rewrite He in H. discriminate H.
  - cbn [flat_map] in H. exfalso.
    destruct (code_unit_cases c1) as [->|[->|[->|[->|[->|[->|H1]]]]]];
      try (vm_compute in H; discriminate H).
    destruct H1 as [_ [He _]]. rewrite He in H. discriminate H.
  - cbn [flat_map] in H. apply escape_app_inj in H. destruct H as [-> H].
    f_equal. apply IH. exact H.
Qed.

Lemma escape_length (c : code_unit) :
  1 <= length (escape c) <= 6
  /\ (length (escape c) = 1 <-> is_special c = false).
Proof.
  destruct (code_unit_cases c) as [->|[->|[->|[->|[->|[->|H]]]]]];
    try (vm_compute; split; [split; discriminate | split; discriminate]).
  destruct H as [Hs [He _]]. rewrite He, Hs. vm_compute.
  split; [split; discriminate | split; reflexivity].
Qed.

Lemma flat_map_escape_length (s : jsstring) :
  length s <= length (flat_map escape s) <= 6 * length s
  /\ (length (flat_map escape s) = length s <-> existsb is_special s = false).
Proof.
  induction s as [|c s IH]; [vm_compute; split; [split; discriminate | split; reflexivity]|].
  cbn [flat_map existsb]. rewrite length_app.
  change (length (c :: s)) with (Z.of_nat (S (List.length s))).
  replace (Z.of_nat (S (List.length s))) with (1 + length s) by (unfold length; lia).
  destruct (escape_length c) as [Hb Hone]. destruct IH as [IHb IHeq].
  split; [lia|].
  rewrite orb_false_iff, <- Hone, <- IHeq. lia.
Qed.

(** Trimming at the front goes through a character-wise rewriting that
    leaves white space alone and never starts a replacement with it. *)
Lemma trimStart_flat_map (f : code_unit -> jsstring) (s : jsstring) :
  (forall c, is_whitespace c = true -> f c = [c]) ->
  (forall c, is_whitespace c = false ->
     exists d r, f c = d :: r /\ is_whitespace d = false) ->
  trimStart (flat_map f s) = flat_map f (trimStart s).
Proof.
  intros Hws Hother. induction s as [|c s IH]; [reflexivity|].
  cbn [flat_map trimStart]. destruct (is_whitespace c) eqn:Hc.
  - rewrite (Hws c Hc). cbn [app trimStart]. rewrite Hc. exact IH.
  - destruct (Hother c Hc) as [d [r [Hf Hd]]].
    cbn [flat_map]. rewrite Hf. cbn [app trimStart]. rewrite Hd. reflexivity.
Qed.

Lemma rev_flat_map (f : code_unit -> jsstring) (s : jsstring) :
  rev (flat_map f s) = flat_map (fun c => rev (f c)) (rev s).
Proof.
  induction s as [|c s IH]; [reflexivity|].
  cbn [flat_map rev]. rewrite rev_app_distr, IH, flat_map_app.
  cbn [flat_map]. rewrite app_nil_r. reflexivity.
Qed.

Lemma escape_whitespace (c : code_unit) : is_whitespace c = true -> escape c = [c].
Proof.
  intros Hc.
  destruct (code_unit_cases c) as [->|[->|[->|[->|[->|[->|H]]]]]];
    try (vm_compute in Hc; discriminate Hc).
  destruct H as [_ [He _]]. exact He.
Qed.

Lemma escape_ends_not_blank (c : code_unit) :
  is_whitespace c = false ->
  (exists d r, escape c = d :: r /\ is_whitespace d = false)
  /\ (exists d r, rev (escape c) = d :: r /\ is_whitespace d = false).
Proof.
  intros Hc.
  destruct (code_unit_cases c) as [->|[->|[->|[->|[->|[->|H]]]]]];
    try (vm_compute; split; eexists _, _; split; reflexivity).
  destruct H as [_ [He _]]. rewrite He. cbn [rev app].
  split; exists c, []; split; (reflexivity || exact Hc).
Qed.

Lemma trim_flat_map_escape (s : jsstring) :
  trim (flat_map escape s) = flat_map escape (trim s).
Proof.
  unfold trim, trimEnd.
  rewrite (trimStart_flat_map escape s).
  2:{ apply escape_whitespace. }
  2:{ intros c Hc. apply (escape_ends_not_blank c Hc). }
  rewrite rev_flat_map.
  rewrite (trimStart_flat_map (fun c => rev (escape c))).
  2:{ intros c Hc. rewrite (escape_whitespace c Hc). reflexivity. }
  2:{ intros c Hc. apply (escape_ends_not_blank c Hc). }
  rewrite <- (rev_involutive (trimStart (rev (trimStart s)))) at 1.
  rewrite <- rev_flat_map. rewrite !rev_involutive. reflexivity.
Qed.

End SanitizeFacts.

Module SanitizeSpec.
Import Gemini JsFacts PromptFacts Sanitize SanitizeFacts.

(** X8. Whatever the input, the sanitized text holds no [<], no [>], no
    double quote, no single quote and no slash. *)
Theorem sanitizeInput_leaves_no_markup (input : jsstring) (c : code_unit) :
  In c (sanitizeInput input) ->
  c <> LESS_THAN /\ c <> GREATER_THAN /\ c <> DOUBLE_QUOTE
  /\ c <> SINGLE_QUOTE /\ c <> SLASH.
Proof.
  intros Hin.
  assert (H : forallb (fun u => negb (is_markup u)) (sanitizeInput input) = true).
  { rewrite sanitizeInput_flat_map. apply forallb_flat_map. apply escape_no_markup. }
  rewrite forallb_forall in H. specialize (H c Hin).
  apply negb_true_iff in H. unfold is_markup in H.
  repeat (apply orb_false_iff in H; destruct H as [H ?]).
  repeat match goal with E : (_ =? _)%N = false |- _ => apply N.eqb_neq in E end.
  repeat split; assumption.
Qed.

Lemma sanitizeInput_leaves_no_markup_witness :
  In 59%N (sanitizeInput (lit "</b>"))
  /\ (59%N <> LESS_THAN /\ 59%N <> GREATER_THAN /\ 59%N <> DOUBLE_QUOTE
      /\ 59%N <> SINGLE_QUOTE /\ 59%N <> SLASH).
Proof.
  assert (H : In 59%N (sanitizeInput (lit "</b>"))).
  { vm_compute. do 3 right. left. reflexivity. }
  split; [exact H|].
  exact (sanitizeInput_leaves_no_markup (lit "</b>") 59%N H).
Defined.

(** X9. Sanitizing loses nothing: two inputs with the same sanitized text
    are the same input. *)
Theorem sanitizeInput_is_injective (input1 input2 : jsstring) :
  sanitizeInput input1 = sanitizeInput input2 -> input1 = input2.
Proof.
  rewrite !sanitizeInput_flat_map. apply flat_map_escape_inj.
Qed.

Lemma sanitizeInput_is_injective_witness :
  sanitizeInput (lit "a<b & c") = sanitizeInput (lit "a<b" ++ lit " & c")
  /\ lit "a<b & c" = lit "a<b" ++ lit " & c".
Proof.
  assert (H : sanitizeInput (lit "a<b & c") = sanitizeInput (lit "a<b" ++ lit " & c"))
    by reflexivity.
  split; [exact H|].
  exact (sanitizeInput_is_injective (lit "a<b & c") (lit "a<b" ++ lit " & c") H).
Defined.

(** X10. Sanitizing is not idempotent: a text is left as it is exactly
    when it holds none of the six characters, and sanitizing a second
    time changes the result whenever the first time changed the input,
    because the ampersand of every replacement is replaced again. *)
Theorem sanitizeInput_twice (input : jsstring) :
  (sanitizeInput input = input <-> existsb is_special input = false)
  /\ (sanitizeInput (sanitizeInput input) = sanitizeInput input
      <-> existsb is_special input = false).
Proof.
  assert (Hfix : sanitizeInput input = input <-> existsb is_special input = false).
  { rewrite sanitizeInput_flat_map.
    destruct (flat_map_escape_length input) as [_ Hlen]. split.
    - intros H. apply Hlen. rewrite H. reflexivity.
    - intros H. induction input as [|c s IH]; [reflexivity|].
      cbn [existsb] in H. apply orb_false_iff in H. destruct H as [Hc Hs].
      cbn [flat_map]. rewrite IH.
      + destruct (escape_length c) as [_ Hone].
        destruct (code_unit_cases c) as [->|[->|[->|[->|[->|[->|Hn]]]]]];
          try (vm_compute in Hc; discriminate Hc).
        destruct Hn as [_ [He _]]. rewrite He. reflexivity.
      + destruct (flat_map_escape_length s) as [_ Hlen']. exact Hlen'.
      + exact Hs. }
  split; [exact Hfix|].
  rewrite <- Hfix. split.
  - intros H. apply flat_map_escape_inj. rewrite <- !sanitizeInput_flat_map. exact H.
  - intros H. rewrite H. exact H.
Qed.

(** X11. Sanitizing never shortens a text and makes it at most six times
    as long; the length stays the same exactly when nothing was
    replaced. *)
Theorem sanitizeInput_length (input : jsstring) :
  length input <= length (sanitizeInput input) <= 6 * length input
  /\ (length (sanitizeInput input) = length input <-> existsb is_special input = false).
Proof. rewrite sanitizeInput_flat_map. apply flat_map_escape_length. Qed.

(** X12. Trimming and sanitizing can be done in either order:
    [sanitizeAndTrim], which trims first, returns what trimming the
    sanitized input returns. *)
Theorem sanitizeAndTrim_commutes (input : jsstring) :
  sanitizeAndTrim input = trim (sanitizeInput input).
Proof.
  unfold sanitizeAndTrim. rewrite !sanitizeInput_flat_map.
  symmetry. apply trim_flat_map_escape.
Qed.

End SanitizeSpec.

(* ================================================================== *)
(** ** Facts about the chat route *)
(* ================================================================== *)

Module ServerFacts.
Import Gemini JsFacts GeminiFacts PromptFacts Sanitize Server.

Lemma array_slice_last {A : Type} (l : list A) (n : Z) :
  0 < n ->
  array_slice l (- n) None = skipn (List.length l - Z.to_nat n) l.
Proof.
  intros Hn. unfold array_slice, relative_index.
  set (len := Z.of_nat (List.length l)).
  assert (Hlen : 0 <= len) by (unfold len; lia).
  destruct (Z.ltb_spec (- n) 0) as [_|Hge]; [|lia].
  replace (len + - n) with (len - n) by lia.
  destruct (Z.le_ge_cases (len - n) 0) as [Hle|Hge].
  - rewrite (Z.max_r (len - n) 0) by lia.
    replace (List.length l - Z.to_nat n)%nat with O by (unfold len in *; lia).
    change (Z.to_nat 0) with O. cbn [skipn].
    rewrite Z.sub_0_r, Z.max_l by lia.
    unfold len. rewrite Nat2Z.id. apply firstn_all.
  - rewrite (Z.max_l (len - n) 0) by lia.
    rewrite Z.max_l by lia.
    replace (Z.to_nat (len - n)) with (List.length l - Z.to_nat n)%nat
      by (unfold len in *; lia).
    apply firstn_all2. rewrite length_skipn. unfold len in *. lia.
Qed.

Lemma and_then_normal {A B} (m : Route A) (k : A -> Route B) (w w' : world) (a : A) :
  m w = (Normal a, w') -> and_then m k w = k a w'.
Proof. intros H. unfold and_then. rewrite H. reflexivity. Qed.

Lemma and_then_throw {A B} (m : Route A) (k : A -> Route B) (w w' : world) (e : js_value) :
  m w = (Throw e, w') -> and_then m k w = (Throw e, w').
Proof. intros H. unfold and_then. rewrite H. reflexivity. Qed.

(** The provider returns a reply fit to show, or it throws. *)
Lemma generateReply_usable (backend : nat -> jsstring -> attempt_outcome)
    (history : list Turn) (userMessage : jsstring) (t : trace) :
  exists result t',
    generateReply backend history userMessage t = (result, t')
    /\ match result with
       | Normal reply => reply <> [] /\ length reply <= 2000
       | Throw _ => True
       end.
Proof.
  unfold generateReply.
  destruct (for_attempts_ends backend history userMessage (seq 0 MAX_RETRIES) t)
    as [result [t' [Hrun Hres]]].
  exists result, t'. split; [exact Hrun|].
  destruct result as [reply|thrown]; [|exact I].
  destruct Hres as [->|[k [x [_ [_ [_ [Hblank ->]]]]]]].
  - split; [discriminate | rewrite fallback_length; lia].
  - apply capped_text_usable. exact Hblank.
Qed.

Lemma route_fallback_usable : ROUTE_FALLBACK <> [] /\ length ROUTE_FALLBACK <= 2000.
Proof. split; [discriminate | vm_compute; discriminate]. Qed.

Section Steps.

Variable S : Services.

(** What the steps of the handler leave alone. *)
Definition same_process (w w' : world) : Prop :=
  llm_trace w' = llm_trace w /\ llmProvider w' = llmProvider w.

Lemma save_message_total (conversationId sender text : jsstring) (w : world) :
  exists w', save_message S conversationId sender text w = (Normal tt, w')
             /\ same_process w w'.
Proof.
  unfold save_message, try_, and_then, new_cuid, call, pure.
  destruct (message_create S _) as [[]|e]; eexists; split; try reflexivity;
    split; reflexivity.
Qed.

Lemma fetch_history_total (conversationId : jsstring) (w : world) :
  exists rows w', fetch_history S conversationId w = (Normal rows, w')
                  /\ same_process w w'.
Proof.
  unfold fetch_history, try_, call, pure.
  destruct (message_findMany S _) as [rows|e]; eexists _, _; split; try reflexivity;
    split; reflexivity.
Qed.

Lemma getCachedMessages_total (conversationId : jsstring) (w : world) :
  exists r w',
    getCachedMessages S conversationId w = (Normal r, w')
    /\ same_process w w'
    /\ (log w' = log w \/ log w' = log w ++ [RedisGet (cache_key conversationId)])
    /\ (forall items, r = Some items ->
          redisEnabled S (moment w) = true
          /\ redis_is_set S (moment w) = true
          /\ exists cached,
               redis_get S (moment w) = Normal (Some cached)
               /\ cached <> []
               /\ JSON_parse S cached = Normal (JsonArray items)).
Proof.
  unfold getCachedMessages, and_then, cache_off.
  destruct (redisEnabled S (moment w)) eqn:Hen; cbn [negb orb].
  2:{ exists None, w. unfold pure. split; [reflexivity|]. split; [split; reflexivity|].
      split; [auto|]. intros ? Hsome; discriminate Hsome. }
  destruct (redis_is_set S (moment w)) eqn:Hset; cbn [negb].
  2:{ exists None, w. unfold pure. split; [reflexivity|]. split; [split; reflexivity|].
      split; [auto|]. intros ? Hsome; discriminate Hsome. }
  unfold try_, and_then, call, pure.
  destruct (redis_get S (moment w)) as [[cached|]|e] eqn:Hget; cbn [missing].
  - destruct cached as [|c cached]; cbn [falsy].
    + eexists None, _. split; [reflexivity|]. split; [split; reflexivity|].
      split; [cbn; auto|]. intros ? Hsome; discriminate Hsome.
    + destruct (JSON_parse S (c :: cached)) as [[items|]|e] eqn:Hparse.
      * eexists (Some items), _. split; [reflexivity|]. split; [split; reflexivity|].
        split; [cbn; auto|].
        intros items' Hsome. injection Hsome as <-.
        split; [reflexivity|]. split; [reflexivity|].
        exists (c :: cached). split; [reflexivity|]. split; [discriminate | exact Hparse].
      * eexists None, _. split; [reflexivity|]. split; [split; reflexivity|].
        split; [cbn; auto|]. intros ? Hsome; discriminate Hsome.
      * eexists None, _. split; [reflexivity|]. split; [split; reflexivity|].
        split; [cbn; auto|]. intros ? Hsome; discriminate Hsome.
  - eexists None, _. split; [reflexivity|]. split; [split; reflexivity|].
    split; [cbn; auto|]. intros ? Hsome; discriminate Hsome.
  - eexists None, _. split; [reflexivity|]. split; [split; reflexivity|].
    split; [cbn; auto|]. intros ? Hsome; discriminate Hsome.
Qed.

Lemma cacheMessages_total (conversationId : jsstring) (messages : list Turn) (w : world) :
  exists w',
    cacheMessages S conversationId messages w = (Normal tt, w')
    /\ same_process w w'
    /\ (if negb (redisEnabled S (moment w)) || negb (redis_is_set S (moment w))
        then w' = w
        else log w'
             = log w ++ [RedisSetex (cache_key conversationId) 3600
                           (JSON_stringify S
                              (skipn (List.length messages - 20) messages))]).
Proof.
  unfold cacheMessages, and_then, cache_off.
  destruct (negb (redisEnabled S (moment w)) || negb (redis_is_set S (moment w))).
  - exists w. unfold pure. repeat split; reflexivity.
  - unfold try_, call, pure.
    change (array_slice messages (-20) None) with (array_slice messages (Z.opp 20) None).
    rewrite (array_slice_last messages 20) by lia.
    change (Z.to_nat 20) with 20%nat.
    destruct (redis_setex S (moment w)) as [[]|e]; eexists; repeat split; reflexivity.
Qed.

Lemma getLLMProvider_cases (w : world) :
  (exists provider w', getLLMProvider S w = (Normal provider, w')
                       /\ llm_trace w' = llm_trace w /\ log w' = log w
                       /\ llmProvider w' = Some provider)
  \/ (exists e, getLLMProvider S w = (Throw e, w)
                /\ llmProvider w = None
                /\ missing (GEMINI_API_KEY S) = true).
Proof.
  unfold getLLMProvider. destruct (llmProvider w) as [provider|] eqn:Hp.
  - left. exists provider, w. auto.
  - unfold createLLMProvider, new_GeminiProvider.
    destruct (GEMINI_API_KEY S) as [key|]; cbn [missing].
    + destruct (falsy key) eqn:Hk.
      * right. eexists. auto.
      * left. eexists _, _. repeat split; reflexivity.
    + right. eexists. auto.
Qed.

Lemma generate_ai_reply_total (history : list Turn) (trimmedMessage : jsstring) (w : world) :
  exists reply w',
    generate_ai_reply S history trimmedMessage w = (Normal reply, w')
    /\ reply <> [] /\ length reply <= 2000
    /\ log w' = log w.
Proof.
  unfold generate_ai_reply, try_.
  destruct (getLLMProvider_cases w)
    as [[provider [w1 [Hget [Ht [Hl Hp]]]]]|[e [Hget _]]].
  - rewrite (and_then_normal _ _ _ _ _ Hget).
    unfold provider_generateReply.
    destruct (generateReply_usable (backend S) history trimmedMessage (llm_trace w1))
      as [[reply|thrown] [t' [Hrun Hres]]]; rewrite Hrun.
    + destruct Hres as [Hne Hlen].
      exists reply, {| llm_trace := t'; log := log w1; llmProvider := llmProvider w1 |}.
      split; [reflexivity|]. split; [exact Hne|]. split; [exact Hlen | exact Hl].
    + destruct route_fallback_usable as [Hne Hlen]. unfold pure.
      exists ROUTE_FALLBACK,
        {| llm_trace := t'; log := log w1; llmProvider := llmProvider w1 |}.
      split; [reflexivity|]. split; [exact Hne|]. split; [exact Hlen | exact Hl].
  - rewrite (and_then_throw _ _ _ _ _ Hget). unfold pure.
    destruct route_fallback_usable as [Hne Hlen].
    exists ROUTE_FALLBACK, w.
    split; [reflexivity|]. split; [exact Hne|].
    split; [exact Hlen | reflexivity].
Qed.

Lemma save_message_log (conversationId sender text : jsstring) (w : world) :
  exists w', save_message S conversationId sender text w = (Normal tt, w')
             /\ same_process w w'
             /\ log w' = log w ++ [ NewId (cuid S (moment w));
                                    MessageCreate (cuid S (moment w))
                                      conversationId sender text ].
Proof.
  unfold save_message, try_, and_then, new_cuid, call, pure.
  destruct (message_create S _) as [[]|e]; eexists; split; try reflexivity;
    (split; [split; reflexivity | cbn [log]; rewrite <- app_assoc; reflexivity]).
Qed.

Lemma create_conversation_same_process (w : world) :
  same_process w (snd (create_conversation S w)).
Proof.
  unfold create_conversation, and_then, new_cuid, call.
  destruct (conversation_create S _ _); split; reflexivity.
Qed.

Lemma resolve_conversation_same_process (sessionId : option jsstring) (w : world) :
  same_process w (snd (resolve_conversation S sessionId w)).
Proof.
  unfold resolve_conversation.
  destruct (missing sessionId); [apply create_conversation_same_process|].
  destruct sessionId as [sid|]; [|apply create_conversation_same_process].
  unfold try_, and_then, call.
  destruct (conversation_findUnique S (moment w) sid) as [[|]|e].
  - split; reflexivity.
  - match goal with
    | |- context [create_conversation S ?w0] =>
        pose proof (create_conversation_same_process w0) as Hc;
        destruct (create_conversation S w0) as [[c|e] w1]
    end.
    + exact Hc.
    + match goal with
      | |- context [create_conversation S ?w0] =>
          pose proof (create_conversation_same_process w0) as Hd;
          destruct (create_conversation S w0) as [r w2]
      end.
      destruct Hc as [Hc1 Hc2], Hd as [Hd1 Hd2].
      cbn [snd llm_trace llmProvider] in *.
      split; congruence.
  - match goal with
    | |- context [create_conversation S ?w0] =>
        pose proof (create_conversation_same_process w0) as Hc;
        destruct (create_conversation S w0) as [r w1]
    end.
    exact Hc.
Qed.

Lemma fetch_history_log (conversationId : jsstring) (w : world) :
  exists rows w', fetch_history S conversationId w = (Normal rows, w')
                  /\ same_process w w'
                  /\ log w' = log w ++ [MessageFindMany conversationId 20].
Proof.
  unfold fetch_history, try_, call, pure.
  destruct (message_findMany S _) as [rows|e]; eexists _, _; split; try reflexivity;
    (split; [split; reflexivity | reflexivity]).
Qed.

Lemma generate_ai_reply_calls_backend
    (history : list Turn) (trimmedMessage : jsstring) (w : world) :
  llmProvider w <> None \/ missing (GEMINI_API_KEY S) = false ->
  exists reply w' rest,
    generate_ai_reply S history trimmedMessage w = (Normal reply, w')
    /\ log w' = log w
    /\ llm_trace w'
       = llm_trace w ++ call_event (prompt_of history trimmedMessage) :: rest.
Proof.
  intros Hkey. unfold generate_ai_reply, try_.
  destruct (getLLMProvider_cases w)
    as [[provider [w1 [Hget [Ht [Hl Hp]]]]]|[e [Hget [Hnone Hmiss]]]].
  - rewrite (and_then_normal _ _ _ _ _ Hget).
    unfold provider_generateReply.
    destruct (for_attempts_extends (backend S) history trimmedMessage
                (seq 0 MAX_RETRIES) (llm_trace w1)) as [added [Hadd Hcall]].
    destruct Hcall as [rest ->]; [discriminate|].
    fold (generateReply (backend S) history trimmedMessage (llm_trace w1)) in Hadd.
    destruct (generateReply (backend S) history trimmedMessage (llm_trace w1))
      as [[reply|thrown] t'] eqn:Hrun; cbn [snd] in Hadd.
    + exists reply, {| llm_trace := t'; log := log w1; llmProvider := llmProvider w1 |}, rest.
      split; [reflexivity|]. split; [exact Hl|]. cbn [llm_trace]. rewrite Hadd, Ht.
      reflexivity.
    + unfold pure.
      exists ROUTE_FALLBACK,
        {| llm_trace := t'; log := log w1; llmProvider := llmProvider w1 |}, rest.
      split; [reflexivity|]. split; [exact Hl|]. cbn [llm_trace]. rewrite Hadd, Ht.
      reflexivity.
  - destruct Hkey as [Hkey|Hkey]; congruence.
Qed.

Lemma fetch_history_exact (conversationId : jsstring) (w : world) :
  exists w', fetch_history S conversationId w = (Normal (rows_read S (moment w)), w')
             /\ same_process w w'
             /\ log w' = log w ++ [MessageFindMany conversationId 20].
Proof.
  unfold fetch_history, try_, call, pure, rows_read.
  destruct (message_findMany S (moment w)) as [rows|e]; eexists; split; try reflexivity;
    (split; [split; reflexivity | reflexivity]).
Qed.

Lemma getCachedMessages_on (conversationId : jsstring) (w : world) :
  redisEnabled S (moment w) = true ->
  redis_is_set S (moment w) = true ->
  exists w', getCachedMessages S conversationId w = (Normal (cache_read S (moment w)), w')
             /\ same_process w w'
             /\ log w' = log w ++ [RedisGet (cache_key conversationId)].
Proof.
  intros Hen Hset.
  unfold getCachedMessages, and_then, cache_off, cache_read. rewrite Hen, Hset.
  cbn [negb orb]. unfold try_, and_then, call, pure.
  destruct (redis_get S (moment w)) as [[cached|]|e]; cbn [missing].
  - destruct (falsy cached).
    + eexists. split; [reflexivity|]. split; [split; reflexivity | reflexivity].
    + destruct (JSON_parse S cached) as [[items|]|e]; eexists;
        (split; [reflexivity|]; split; [split; reflexivity | reflexivity]).
  - eexists. split; [reflexivity|]. split; [split; reflexivity | reflexivity].
  - eexists. split; [reflexivity|]. split; [split; reflexivity | reflexivity].
Qed.

Lemma updated_history_shape (history : list Turn) (sanitizedMessage aiReply : jsstring) :
  updated_history history sanitizedMessage aiReply
  = skipn (List.length history - 18) history
    ++ [ {| sender := lit "user"; text := sanitizedMessage |};
         {| sender := lit "ai"; text := aiReply |} ]
  /\ List.length (updated_history history sanitizedMessage aiReply)
     = Nat.min (List.length history + 2) 20.
Proof.
  assert (H : updated_history history sanitizedMessage aiReply
              = skipn (List.length history - 18) history
                ++ [ {| sender := lit "user"; text := sanitizedMessage |};
                     {| sender := lit "ai"; text := aiReply |} ]).
  { unfold updated_history.
    change (-20) with (Z.opp 20). rewrite array_slice_last by lia.
    change (Z.to_nat 20) with 20%nat.
    rewrite List.length_app. cbn [List.length].
    rewrite skipn_app.
    replace (List.length history + 2 - 20)%nat with (List.length history - 18)%nat by lia.
    replace (List.length history - 18 - List.length history)%nat with O by lia.
    reflexivity. }
  split; [exact H|].
  rewrite H, List.length_app, length_skipn. cbn [List.length]. lia.
Qed.

Lemma prompt_includes_message (history : list Turn) (userMessage : jsstring) :
  includes (prompt_of history userMessage) userMessage = true.
Proof.
  unfold prompt_of, build_prompt.
  rewrite (app_assoc SYSTEM_PROMPT), (app_assoc (SYSTEM_PROMPT ++ HISTORY_HEADER)),
    (app_assoc ((SYSTEM_PROMPT ++ HISTORY_HEADER) ++ _)).
  apply includes_app.
Qed.

End Steps.

End ServerFacts.

Module ServerSpec.
Import Gemini JsFacts GeminiFacts PromptFacts Sanitize Scenarios.
Import Server ServerScenarios ServerFacts.

(** X13. A provider is built exactly when [GEMINI_API_KEY] is set and
    not empty.  When it is unset or empty, [createLLMProvider] throws its
    own error; the check of the constructor behind it can never fire
    through this function. *)
Theorem createLLMProvider_needs_a_key (env : option jsstring) :
  (missing env = true ->
   createLLMProvider env
   = Throw (ErrorInstance (lit "GEMINI_API_KEY environment variable is required")))
  /\ (missing env = false ->
      exists key, env = Some key /\ createLLMProvider env = Normal {| apiKey := key |})
  /\ createLLMProvider env <> Throw (ErrorInstance (lit "GEMINI_API_KEY is required")).
Proof.
  unfold createLLMProvider, new_GeminiProvider, missing.
  destruct env as [key|]; [destruct (falsy key) eqn:Hk|].
  - split; [reflexivity|]. split; [discriminate|]. discriminate.
  - split; [discriminate|]. split; [|discriminate].
    intros _. exists key. split; reflexivity.
  - split; [reflexivity|]. split; [discriminate|]. discriminate.
Qed.

(** X14. The provider is built once: when [getLLMProvider] returns one,
    every later call returns the same one without looking at the
    environment again; when it throws, nothing is remembered, the key was
    unset or empty and the next call tries again. *)
Theorem provider_is_built_once (S S' : Services) (w : world) :
  match getLLMProvider S w with
  | (Normal provider, w') => getLLMProvider S' w' = (Normal provider, w')
  | (Throw _, w') =>
      w' = w /\ llmProvider w = None /\ missing (GEMINI_API_KEY S) = true
  end.
Proof.
  destruct (getLLMProvider_cases S w)
    as [[provider [w' [Hget [_ [_ Hp]]]]]|[e [Hget [Hnone Hmiss]]]]; rewrite Hget.
  - unfold getLLMProvider. rewrite Hp. reflexivity.
  - auto.
Qed.

(** X15. The reply step of the handler never fails: whatever the
    environment, the provider and the backend do, it yields a reply that
    is not empty and at most 2000 code units long, and it touches neither
    the database nor the cache. *)
Theorem handler_always_has_a_reply
    (S : Services) (history : list Turn) (trimmedMessage : jsstring) (w : world) :
  exists reply w',
    generate_ai_reply S history trimmedMessage w = (Normal reply, w')
    /\ reply <> [] /\ length reply <= 2000
    /\ log w' = log w.
Proof. apply generate_ai_reply_total. Qed.

(** X16. Without an API key the handler still answers: when no provider
    has been built and [GEMINI_API_KEY] is unset or empty, the reply is
    the fallback message, the very text the provider falls back on; the
    backend is not called and no provider is remembered. *)
Theorem missing_key_gives_the_fallback
    (S : Services) (history : list Turn) (trimmedMessage : jsstring) (w : world) :
  llmProvider w = None ->
  missing (GEMINI_API_KEY S) = true ->
  generate_ai_reply S history trimmedMessage w = (Normal ROUTE_FALLBACK, w)
  /\ ROUTE_FALLBACK = getFallbackMessage.
Proof.
  intros Hnone Hmiss. split; [|reflexivity].
  unfold generate_ai_reply, try_, and_then, getLLMProvider. rewrite Hnone.
  unfold createLLMProvider, missing in *.
  destruct (GEMINI_API_KEY S) as [key|]; [rewrite Hmiss|]; reflexivity.
Qed.

Lemma missing_key_gives_the_fallback_witness :
  llmProvider fresh_world = None
  /\ missing (GEMINI_API_KEY (all_is_well None)) = true
  /\ (generate_ai_reply (all_is_well None) greeting question fresh_world
      = (Normal ROUTE_FALLBACK, fresh_world)
      /\ ROUTE_FALLBACK = getFallbackMessage).
Proof.
  assert (H1 : llmProvider fresh_world = None) by reflexivity.
  assert (H2 : missing (GEMINI_API_KEY (all_is_well None)) = true) by reflexivity.
  split; [exact H1|]. split; [exact H2|].
  exact (missing_key_gives_the_fallback (all_is_well None) greeting question fresh_world
           H1 H2).
Defined.

(** X17. A parsed message of white space only is refused by the handler
    itself: status 400 with the details [Message cannot be empty], and
    nothing is called, neither the database nor the cache nor the
    backend. *)
Theorem blank_message_is_refused
    (S : Services) (message : jsstring) (sessionId : option jsstring) (w : world) :
  forallb is_whitespace message = true ->
  post_message S (ParseSuccess message sessionId) w
  = (Normal (Json400 (lit "Invalid request") (lit "Message cannot be empty")), w).
Proof.
  intros Hws. apply trim_nil_iff in Hws.
  unfold post_message, try_. rewrite Hws. reflexivity.
Qed.

Lemma blank_message_is_refused_witness :
  forallb is_whitespace (lit "  " ++ LF) = true
  /\ post_message only_conversations_work (ParseSuccess (lit "  " ++ LF) None) fresh_world
     = (Normal (Json400 (lit "Invalid request") (lit "Message cannot be empty")), fresh_world).
Proof.
  assert (H : forallb is_whitespace (lit "  " ++ LF) = true) by reflexivity.
  split; [exact H|].
  exact (blank_message_is_refused only_conversations_work (lit "  " ++ LF) None fresh_world H).
Defined.

(** X18. Once the conversation is known, nothing stops the reply: for a
    message that is not blank, if finding or creating the conversation
    ends with an id, the handler answers 200 with that id and a reply
    that is not empty and at most 2000 code units long, whatever happens
    to the two message writes, the history read, the cache and the
    backend.  If the conversation cannot be created, the answer is the
    fixed 500 body, which says nothing of the error. *)
Theorem reply_survives_every_later_failure
    (S : Services) (message : jsstring) (sessionId : option jsstring) (w : world) :
  trim message <> [] ->
  match resolve_conversation S sessionId w with
  | (Normal conversationId, _) =>
      exists reply w',
        post_message S (ParseSuccess message sessionId) w
        = (Normal (Json200 reply conversationId), w')
        /\ reply <> [] /\ length reply <= 2000
  | (Throw _, w1) =>
      post_message S (ParseSuccess message sessionId) w
      = (Normal (Json500 (lit "An error occurred processing your message")
                   (lit "Please try again shortly.")), w1)
  end.
Proof.
  intros Hne.
  assert (Hlen : (length (trim message) =? 0) = false).
  { apply Z.eqb_neq. rewrite length_nil_iff. exact Hne. }
  unfold post_message, try_. rewrite Hlen.
  destruct (resolve_conversation S sessionId w) as [[cid|e] w1] eqn:Hres.
  - rewrite (and_then_normal _ _ _ _ _ Hres). cbv beta zeta.
    destruct (save_message_total S cid (lit "user") (sanitizeInput (trim message)) w1)
      as [w2 [H2 _]].
    rewrite (and_then_normal _ _ _ _ _ H2). cbv beta.
    destruct (fetch_history_total S cid w2) as [rows [w3 [H3 _]]].
    rewrite (and_then_normal _ _ _ _ _ H3). cbv beta.
    destruct (getCachedMessages_total S cid w3) as [cached [w4 [H4 _]]].
    rewrite (and_then_normal _ _ _ _ _ H4). cbv beta.
    destruct (generate_ai_reply_total S (choose_history cached rows) (trim message) w4)
      as [reply [w5 [H5 [Hreply [Hcap _]]]]].
    rewrite (and_then_normal _ _ _ _ _ H5). cbv beta.
    destruct (save_message_total S cid (lit "ai") reply w5) as [w6 [H6 _]].
    rewrite (and_then_normal _ _ _ _ _ H6). cbv beta.
    destruct (cacheMessages_total S cid
                (updated_history (choose_history cached rows)
                   (sanitizeInput (trim message)) reply) w6) as [w7 [H7 _]].
    rewrite (and_then_normal _ _ _ _ _ H7). cbv beta. unfold pure.
    exists reply, w7. split; [reflexivity|]. split; assumption.
  - rewrite (and_then_throw _ _ _ _ _ Hres). reflexivity.
Qed.

Lemma reply_survives_every_later_failure_witness :
  trim question <> []
  /\ match resolve_conversation only_conversations_work (Some (lit "gone")) fresh_world with
     | (Normal conversationId, _) =>
         exists reply w',
           post_message only_conversations_work
             (ParseSuccess question (Some (lit "gone"))) fresh_world
           = (Normal (Json200 reply conversationId), w')
           /\ reply <> [] /\ length reply <= 2000
     | (Throw _, w1) =>
         post_message only_conversations_work
           (ParseSuccess question (Some (lit "gone"))) fresh_world
         = (Normal (Json500 (lit "An error occurred processing your message")
                      (lit "Please try again shortly.")), w1)
     end.
Proof.
  assert (H : trim question <> []) by discriminate.
  split; [exact H|].
  exact (reply_survives_every_later_failure only_conversations_work question
           (Some (lit "gone")) fresh_world H).
Defined.



(** X20. Reading the cache never fails and issues at most one Redis
    command.  It returns messages only when the cache is on, Redis held a
    string that is not empty under [conv:] followed by the conversation
    id, and that string parsed to an array; in every other case (cache
    off, read error, nothing stored, parse error, not an array) it
    returns [null]. *)
Theorem getCachedMessages_never_fails
    (S : Services) (conversationId : jsstring) (w : world) :
  exists r w',
    getCachedMessages S conversationId w = (Normal r, w')
    /\ (log w' = log w
        \/ log w' = log w ++ [RedisGet (lit "conv:" ++ conversationId)])
    /\ (forall items, r = Some items ->
          redisEnabled S (moment w) = true
          /\ redis_is_set S (moment w) = true
          /\ exists cached,
               redis_get S (moment w) = Normal (Some cached)
               /\ cached <> []
               /\ JSON_parse S cached = Normal (JsonArray items)).
Proof.
  destruct (getCachedMessages_total S conversationId w) as [r [w' [H [_ [Hlog Hsome]]]]].
  exists r, w'. split; [exact H|]. split; [exact Hlog | exact Hsome].
Qed.

(** X21. Writing the cache never fails.  With the cache off it does
    nothing; with the cache on it issues one [SETEX] under [conv:]
    followed by the conversation id, for 3600 seconds, of the last 20
    messages, and an error of that command is swallowed. *)
Theorem cacheMessages_never_fails
    (S : Services) (conversationId : jsstring) (messages : list Turn) (w : world) :
  exists w',
    cacheMessages S conversationId messages w = (Normal tt, w')
    /\ (if negb (redisEnabled S (moment w)) || negb (redis_is_set S (moment w))
        then w' = w
        else log w'
             = log w ++ [RedisSetex (lit "conv:" ++ conversationId) 3600
                           (JSON_stringify S
                              (skipn (List.length messages - 20) messages))]).
Proof.
  destruct (cacheMessages_total S conversationId messages w) as [w' [H [_ Hlog]]].
  exists w'. split; [exact H | exact Hlog].
Qed.

(** X22. What is stored is sanitized, what is asked is not: for a message
    that is not blank, once the conversation is known, the handler asks
    the database to store the user turn with the sanitized text of the
    trimmed message; and if a provider can be had, the backend is called
    on a prompt that holds the trimmed message as it was typed. *)
Theorem stored_text_is_sanitized_prompt_is_not
    (S : Services) (message : jsstring) (sessionId : option jsstring)
    (w w1 : world) (conversationId : jsstring) :
  trim message <> [] ->
  resolve_conversation S sessionId w = (Normal conversationId, w1) ->
  llmProvider w <> None \/ missing (GEMINI_API_KEY S) = false ->
  exists history rest resp w',
    post_message S (ParseSuccess message sessionId) w = (Normal resp, w')
    /\ In (MessageCreate (cuid S (moment w1)) conversationId (lit "user")
             (sanitizeInput (trim message)))
          (log w')
    /\ llm_trace w'
       = llm_trace w ++ call_event (prompt_of history (trim message)) :: rest
    /\ includes (prompt_of history (trim message)) (trim message) = true.
Proof.
  intros Hne Hres Hkey.
  assert (Hlen : (length (trim message) =? 0) = false).
  { apply Z.eqb_neq. rewrite length_nil_iff. exact Hne. }
  pose proof (resolve_conversation_same_process S sessionId w) as [Hp1t Hp1p].
  rewrite Hres in Hp1t, Hp1p. cbn [snd] in Hp1t, Hp1p.
  unfold post_message, try_. rewrite Hlen.
  rewrite (and_then_normal _ _ _ _ _ Hres). cbv beta zeta.
  destruct (save_message_log S conversationId (lit "user")
              (sanitizeInput (trim message)) w1) as [w2 [H2 [[Ht2 Hp2] Hl2]]].
  rewrite (and_then_normal _ _ _ _ _ H2). cbv beta.
  destruct (fetch_history_log S conversationId w2) as [rows [w3 [H3 [[Ht3 Hp3] Hl3]]]].
  rewrite (and_then_normal _ _ _ _ _ H3). cbv beta.
  destruct (getCachedMessages_total S conversationId w3)
    as [cached [w4 [H4 [[Ht4 Hp4] [Hl4 _]]]]].
  rewrite (and_then_normal _ _ _ _ _ H4). cbv beta.
  destruct (generate_ai_reply_calls_backend S (choose_history cached rows)
              (trim message) w4) as [reply [w5 [rest [H5 [Hl5 Ht5]]]]].
  { destruct Hkey as [Hkey|Hkey]; [left | right; exact Hkey]. congruence. }
  rewrite (and_then_normal _ _ _ _ _ H5). cbv beta.
  destruct (save_message_log S conversationId (lit "ai") reply w5)
    as [w6 [H6 [[Ht6 Hp6] Hl6]]].
  rewrite (and_then_normal _ _ _ _ _ H6). cbv beta.
  destruct (cacheMessages_total S conversationId
              (updated_history (choose_history cached rows)
                 (sanitizeInput (trim message)) reply) w6) as [w7 [H7 [[Ht7 Hp7] Hl7]]].
  rewrite (and_then_normal _ _ _ _ _ H7). cbv beta. unfold pure.
  exists (choose_history cached rows), rest, (Json200 reply conversationId), w7.
  split; [reflexivity|].
  assert (Hin2 : In (MessageCreate (cuid S (moment w1)) conversationId (lit "user")
                       (sanitizeInput (trim message))) (log w2)).
  { rewrite Hl2. apply in_or_app. right. right. left. reflexivity. }
  assert (Hin6 : In (MessageCreate (cuid S (moment w1)) conversationId (lit "user")
                       (sanitizeInput (trim message))) (log w6)).
  { rewrite Hl6, Hl5. apply in_or_app. left.
    destruct Hl4 as [-> | ->]; [|apply in_or_app; left];
      rewrite Hl3; apply in_or_app; left; exact Hin2. }
  split.
  { destruct (negb (redisEnabled S (moment w6)) || negb (redis_is_set S (moment w6))).
    - subst w7. exact Hin6.
    - rewrite Hl7. apply in_or_app. left. exact Hin6. }
  split; [|apply prompt_includes_message].
  rewrite Ht7, Ht6, Ht5, Ht4, Ht3, Ht2, Hp1t. reflexivity.
Qed.

Lemma stored_text_is_sanitized_prompt_is_not_witness :
  trim (lit " <b>Hi</b> ") <> []
  /\ resolve_conversation (all_is_well (Some (lit "key"))) None fresh_world
     = (Normal (repeat 99%N 1),
        {| llm_trace := [];
           log := [NewId (repeat 99%N 1); ConversationCreate (repeat 99%N 1)];
           llmProvider := None |})
  /\ (llmProvider fresh_world <> None
      \/ missing (GEMINI_API_KEY (all_is_well (Some (lit "key")))) = false)
  /\ exists history rest resp w',
       post_message (all_is_well (Some (lit "key")))
         (ParseSuccess (lit " <b>Hi</b> ") None) fresh_world = (Normal resp, w')
       /\ In (MessageCreate
                (cuid (all_is_well (Some (lit "key")))
                   (moment {| llm_trace := [];
                              log := [NewId (repeat 99%N 1);
                                      ConversationCreate (repeat 99%N 1)];
                              llmProvider := None |}))
                (repeat 99%N 1) (lit "user")
                (sanitizeInput (trim (lit " <b>Hi</b> "))))
             (log w')
       /\ llm_trace w'
          = llm_trace fresh_world
            ++ call_event (prompt_of history (trim (lit " <b>Hi</b> "))) :: rest
       /\ includes (prompt_of history (trim (lit " <b>Hi</b> ")))
            (trim (lit " <b>Hi</b> ")) = true.
Proof.
  assert (H1 : trim (lit " <b>Hi</b> ") <> []) by discriminate.
  assert (H2 : resolve_conversation (all_is_well (Some (lit "key"))) None fresh_world
     = (Normal (repeat 99%N 1),
        {| llm_trace := [];
           log := [NewId (repeat 99%N 1); ConversationCreate (repeat 99%N 1)];
           llmProvider := None |})) by reflexivity.
  assert (H3 : llmProvider fresh_world <> None
      \/ missing (GEMINI_API_KEY (all_is_well (Some (lit "key")))) = false)
    by (right; reflexivity).
  split; [exact H1|]. split; [exact H2|]. split; [exact H3|].
  exact (stored_text_is_sanitized_prompt_is_not (all_is_well (Some (lit "key")))
           (lit " <b>Hi</b> ") None fresh_world _ _ H1 H2 H3).
Defined.

End ServerSpec.

(* ================================================================== *)
(** ** The key checking script: what the line shows *)
(* ================================================================== *)

Module CheckKeySpec.
Import JsFacts CheckKey.

Lemma substring_prefix (s : jsstring) (n : Z) :
  0 <= n -> substring s 0 (Some n) = firstn (Z.to_nat n) s.
Proof.
  intros Hn. unfold substring. pose proof (length_nonneg s) as Hl.
  rewrite (Z.max_l 0 0) by lia. rewrite (Z.min_l 0 (length s)) by lia.
  rewrite (Z.max_l n 0) by lia.
  rewrite (Z.min_l 0 _) by lia. rewrite (Z.max_r 0 _) by lia.
  change (Z.to_nat 0) with O. cbn [skipn]. rewrite Z.sub_0_r.
  destruct (Z.le_ge_cases n (length s)) as [Hle|Hge].
  - rewrite Z.min_l by lia. reflexivity.
  - rewrite Z.min_r by lia. unfold length in *.
    rewrite Nat2Z.id, !firstn_all2; [reflexivity | lia | lia].
Qed.

Lemma substring_from (s : jsstring) (i : Z) :
  i <= length s -> substring s i None = skipn (Z.to_nat i) s.
Proof.
  intros Hi. unfold substring. pose proof (length_nonneg s) as Hl.
  assert (Hc : Z.min (Z.max i 0) (length s) = Z.max i 0) by lia.
  rewrite Hc. rewrite (Z.min_l (Z.max i 0) (length s)) by lia.
  rewrite (Z.max_r (Z.max i 0) (length s)) by lia.
  replace (Z.to_nat (Z.max i 0)) with (Z.to_nat i) by lia.
  apply firstn_all2. rewrite length_skipn. unfold length in *. lia.
Qed.

(** X23. The line shows the first ten code units of the key, three
    dots, and its last four.  A key of ten code units or fewer is
    therefore shown whole, before the dots; only from fourteen on is any
    of it left out, and then the line is 27 code units long whatever the
    length of the key. *)
Theorem api_key_line_shows_short_keys_whole (apiKey : jsstring) :
  api_key_line apiKey
  = lit "API Key: " ++ firstn 10 apiKey ++ lit "..."
    ++ skipn (List.length apiKey - 4) apiKey ++ LF
  /\ (length apiKey <= 10 -> firstn 10 apiKey = apiKey)
  /\ (14 <= length apiKey -> length (api_key_line apiKey) = 27).
Proof.
  assert (H : api_key_line apiKey
              = lit "API Key: " ++ firstn 10 apiKey ++ lit "..."
                ++ skipn (List.length apiKey - 4) apiKey ++ LF).
  { unfold api_key_line. rewrite substring_prefix, substring_from by lia.
    change (Z.to_nat 10) with 10%nat.
    replace (Z.to_nat (length apiKey - 4)) with (List.length apiKey - 4)%nat
      by (unfold length; lia).
    reflexivity. }
  split; [exact H|]. split.
  - intros Hshort. apply firstn_all2. unfold length in Hshort. lia.
  - intros Hlong. rewrite H. rewrite !length_app.
    change (length (lit "API Key: ")) with 9.
    change (length (lit "...")) with 3.
    change (length LF) with 1.
    unfold length in *. rewrite length_firstn, length_skipn. lia.
Qed.

End CheckKeySpec.
